(** * Falabella scraper for n8n: a shallow embedding of [scraper.py]

    The development follows the source file top to bottom:

    - [JS]: the fragment of JavaScript used by the extraction routine that
      [scrape_falabella] evaluates in the page (strings as UTF-16 code units,
      [trim], truthiness, [||], optional chaining);
    - [DOM]: rendered documents, the simple CSS selectors the routine uses,
      [querySelector] and [querySelectorAll];
    - [Extract]: the extraction routine itself (container choice, the
      per-card [try]/[catch], the pushed record);
    - [Py]: the Python side, as a small trace-and-exception monad:
      [log], [scrape_falabella], [send_to_n8n], [main]. *)

From Stdlib Require Import List String Ascii NArith ZArith Bool Arith Lia.
From Stdlib Require Import Sorted Permutation DecimalString.
Import ListNotations.

Local Open Scope list_scope.
Set Warnings "-register-all".

(* ================================================================== *)
(** ** JavaScript values *)

Module JS.

(** A JavaScript string is a sequence of UTF-16 code units. *)
Definition jsstring := list N.

(** An ASCII literal of the source, as code units. *)
Definition lit (s : string) : jsstring :=
  map N_of_ascii (list_ascii_of_string s).

(** WhiteSpace and LineTerminator code points of ECMAScript, the ones
    [String.prototype.trim] strips: TAB, LF, VT, FF, CR, SP, NBSP, the
    Unicode space separators, LS, PS and the byte order mark. *)
Definition is_whitespace (c : N) : bool :=
  ((9 <=? c) && (c <=? 13) || (c =? 32) || (c =? 160) || (c =? 5760)
   || (8192 <=? c) && (c <=? 8202) || (c =? 8232) || (c =? 8233)
   || (c =? 8239) || (c =? 8287) || (c =? 12288) || (c =? 65279))%N.

Fixpoint trim_start (s : jsstring) : jsstring :=
  match s with
  | c :: s' => if is_whitespace c then trim_start s' else s
  | [] => []
  end.

Definition trim_end (s : jsstring) : jsstring :=
  rev (trim_start (rev s)).

(** [s.trim()] *)
Definition trim (s : jsstring) : jsstring := trim_end (trim_start s).

(** The values the routine handles: [undefined], [null], strings, and the
    one object it can meet, the [SVGAnimatedString] that an SVG link has
    as its [href]. *)
Inductive value :=
| Undefined
| Null
| Str (s : jsstring)
| SVGAnimatedString.

(** ToBoolean: [undefined], [null] and the empty string are falsy; every
    object is truthy. *)
Definition truthy (v : value) : bool :=
  match v with
  | Str (_ :: _) => true
  | SVGAnimatedString => true
  | _ => false
  end.

(** [a || b] *)
Definition or (a b : value) : value := if truthy a then a else b.

(** [o?.p]: [undefined] when the object is [null] or [undefined]. *)
Definition opt_chain {A} (o : option A) (p : A -> value) : value :=
  match o with
  | Some x => p x
  | None => Undefined
  end.

(** Every character of the string is whitespace (so is the empty string). *)
Definition blank (s : jsstring) : bool := forallb is_whitespace s.

End JS.

Abbreviation jsstring := JS.jsstring.
Infix "<||>" := JS.or (at level 55, left associativity).

(* ================================================================== *)
(** ** Rendered documents and selectors *)

Module DOM.

(** The namespace of an element.  A type selector such as [a] or [img]
    matches the local name in any of them, and the properties an element
    has depend on it. *)
Inductive namespace :=
| HTML
| SVG
| MathML.

(** What the routine can observe of an element: its namespace, its local
    name, its class list, its content attributes, and, for an HTML
    element, the reflected [src] and [href] properties (already resolved
    by the browser; the empty string when the attribute is missing).  The
    routine runs in the page's own script world, where page scripts may
    have replaced an accessor: [poisoned] marks an element whose
    [textContent] getter throws. *)
Record elem := {
  ns : namespace;
  tag : string;
  classes : list string;
  attrs : list (string * jsstring);
  src : jsstring;
  href : jsstring;
  visible : bool;
  poisoned : bool
}.

Inductive node :=
| Text (s : jsstring)
| Elem (e : elem) (children : list node).

(** The simple selectors occurring in the source: [.c], [t], [[a]] and
    [[a="v"]].  A selector list is the comma-separated group. *)
Inductive selector :=
| SClass (c : string)
| STag (t : string)
| SHasAttr (a : string)
| SAttrEq (a : string) (v : jsstring).

Definition selector_list := list selector.

Fixpoint assoc (a : string) (l : list (string * jsstring)) : option jsstring :=
  match l with
  | [] => None
  | (k, v) :: l' => if String.eqb k a then Some v else assoc a l'
  end.

Definition jsstring_eqb (s t : jsstring) : bool :=
  if list_eq_dec N.eq_dec s t then true else false.

Definition matches (s : selector) (e : elem) : bool :=
  match s with
  | SClass c => existsb (String.eqb c) (classes e)
  | STag t => String.eqb t (tag e)
  | SHasAttr a => match assoc a (attrs e) with Some _ => true | None => false end
  | SAttrEq a v =>
      match assoc a (attrs e) with
      | Some v' => jsstring_eqb v v'
      | None => false
      end
  end.

(** An element matches a selector list when it matches one of its members. *)
Definition matches_any (sels : selector_list) (e : elem) : bool :=
  existsb (fun s => matches s e) sels.

Definition is_match (sels : selector_list) (n : node) : bool :=
  match n with
  | Elem e _ => matches_any sels e
  | Text _ => false
  end.

(** Depth-first search in tree order, stopping at the first match: the
    node itself, then its children from left to right. *)
Fixpoint first_in (sels : selector_list) (n : node) : option node :=
  match n with
  | Text _ => None
  | Elem e kids =>
      if matches_any sels e then Some n
      else
        (fix scan (ks : list node) : option node :=
           match ks with
           | [] => None
           | k :: ks' =>
               match first_in sels k with
               | Some r => Some r
               | None => scan ks'
               end
           end) kids
  end.

Fixpoint first_in_list (sels : selector_list) (ks : list node) : option node :=
  match ks with
  | [] => None
  | k :: ks' =>
      match first_in sels k with
      | Some r => Some r
      | None => first_in_list sels ks'
      end
  end.

Definition kids (n : node) : list node :=
  match n with
  | Elem _ ks => ks
  | Text _ => []
  end.

(** [card.querySelector(sels)]: the first descendant of [card] in tree
    order matching the group; [None] is JavaScript's [null]. *)
Definition querySelector (card : node) (sels : selector_list) : option node :=
  first_in_list sels (kids card).

(** All element nodes of a subtree in tree order (the node first). *)
Fixpoint subtree (n : node) : list node :=
  match n with
  | Text _ => []
  | Elem e ks =>
      n :: (fix go (l : list node) : list node :=
              match l with
              | [] => []
              | k :: l' => subtree k ++ go l'
              end) ks
  end.

Fixpoint subtrees (ks : list node) : list node :=
  match ks with
  | [] => []
  | k :: ks' => subtree k ++ subtrees ks'
  end.

(** The descendants of a node, in tree order. *)
Definition descendants (n : node) : list node := subtrees (kids n).

(** [el] is the first element in document order, among the descendants
    of [card], that matches some sub-selector of the list: it matches
    one, and no descendant before it matches any. *)
Definition first_in_document (card : node) (sels : selector_list)
    (el : node) : Prop :=
  exists before after,
    descendants card = before ++ el :: after /\
    (exists s, In s sels /\ is_match [s] el = true) /\
    (forall n s, In n before -> In s sels -> is_match [s] n = false).

(** No descendant of [card] matches a sub-selector of the list. *)
Definition unmatched (card : node) (sels : selector_list) : bool :=
  negb (existsb (is_match sels) (descendants card)).

(** A document is the list of its top-level nodes. *)
Definition document := list node.

(** [document.querySelectorAll(sels)]: every matching element, in tree
    order. *)
Definition querySelectorAll (d : document) (sels : selector_list) : list node :=
  filter (is_match sels) (subtrees d).

(** [node.textContent]: the concatenated text of the subtree. *)
Fixpoint textContent (n : node) : jsstring :=
  match n with
  | Text s => s
  | Elem _ ks =>
      (fix go (l : list node) : jsstring :=
         match l with
         | [] => []
         | k :: l' => textContent k ++ go l'
         end) ks
  end.

(** [el.getAttribute(a)]: the attribute's value, or [null]. *)
Definition getAttribute (a : string) (n : node) : JS.value :=
  match n with
  | Elem e _ => match assoc a (attrs e) with
                | Some v => JS.Str v
                | None => JS.Null
                end
  | Text _ => JS.Null
  end.

(** A page none of whose elements has a replaced accessor. *)
Definition sound (n : node) : bool :=
  match n with
  | Elem e _ => negb (poisoned e)
  | Text _ => true
  end.

Definition untampered (p : document) : bool := forallb sound (subtrees p).

(** The claim's reading of a field lookup: the sub-selectors tried one by
    one in the listed order, the first with a match giving the element. *)
Fixpoint first_listed (card : node) (sels : selector_list) : option node :=
  match sels with
  | [] => None
  | s :: rest =>
      match querySelector card [s] with
      | Some el => Some el
      | None => first_listed card rest
      end
  end.

(** Induction over a tree together with the list of its children. *)
Fixpoint node_rect' (P : node -> Type) (Q : list node -> Type)
    (HT : forall s, P (Text s))
    (HE : forall e ks, Q ks -> P (Elem e ks))
    (HN : Q [])
    (HC : forall k ks, P k -> Q ks -> Q (k :: ks))
    (n : node) : P n :=
  match n with
  | Text s => HT s
  | Elem e ks =>
      HE e ks
        ((fix all (l : list node) : Q l :=
            match l with
            | [] => HN
            | k :: l' => HC k l' (node_rect' P Q HT HE HN HC k) (all l')
            end) ks)
  end.

End DOM.

(* ================================================================== *)
(** ** The extraction routine evaluated in the page *)

Module Extract.
Import JS DOM.

(** Outcome of evaluating JavaScript that may throw. *)
Inductive result (A : Type) :=
| Ok (a : A)
| Throw.
Arguments Ok {A} a.
Arguments Throw {A}.

Definition bind {A B} (r : result A) (k : A -> result B) : result B :=
  match r with
  | Ok a => k a
  | Throw => Throw
  end.

#[local] Notation "x <- r ;; k" := (bind r (fun x => k))
  (at level 61, r at next level, right associativity).

(** One pushed object.  [id] is a number; the other properties hold
    whatever the right-hand sides evaluate to. *)
Record ProductRecord := {
  id : nat;
  name : value;
  price : value;
  originalPrice : value;
  discount : value;
  image : value;
  link : value;
  rating : value
}.

(** The candidate container selectors, in the order of the source. *)
Definition selectors : list selector :=
  [ SClass "product-item";
    SClass "search-results-item";
    SClass "product-card";
    SAttrEq "data-testid" (lit "product-card") ].

(** The fourth candidate of the extraction routine. *)
Definition fourth : selector := SAttrEq "data-testid" (lit "product-card").

(** The selector groups handed to [card.querySelector]. *)
Definition name_sel : selector_list :=
  [ SClass "product-name";
    SClass "search-results-4-grid__information__name";
    STag "h3";
    SClass "title" ].
Definition price_sel : selector_list :=
  [ SClass "price";
    SClass "search-results-4-grid__pod-price";
    SClass "price-value";
    SHasAttr "data-price" ].
Definition originalPrice_sel : selector_list :=
  [ SClass "original-price"; SClass "list-price"; SClass "price-old" ].
Definition discount_sel : selector_list :=
  [ SClass "discount"; SClass "discount-percentage"; SClass "badge-discount" ].
Definition image_sel : selector_list := [ STag "img" ].
Definition link_sel : selector_list := [ STag "a" ].
Definition rating_sel : selector_list :=
  [ SClass "rating"; SClass "stars"; SClass "review-rating" ].

(** The sentinel ['N/A']. *)
Definition sentinel : value := Str (lit "N/A").

(** The loop over [selectors]: [productElements] is reassigned at every
    candidate and the loop breaks at the first non-empty result. *)
Fixpoint choose (d : document) (cands : list selector)
    (productElements : list node) : list node :=
  match cands with
  | [] => productElements
  | selector :: rest =>
      let found := querySelectorAll d [selector] in
      if 0 <? List.length found then found else choose d rest found
  end.

Definition productElements (d : document) : list node :=
  choose d selectors [].

(** Reading [el.textContent]; throws on an element whose getter was
    replaced. *)
Definition get_textContent (n : node) : result jsstring :=
  match n with
  | Elem e _ => if poisoned e then Throw else Ok (textContent n)
  | Text s => Ok s
  end.

(** [el?.textContent?.trim()] *)
Definition trimmed_text (el : option node) : result value :=
  match el with
  | None => Ok Undefined
  | Some n => t <- get_textContent n ;; Ok (Str (trim t))
  end.

(** [el.src]: the reflected property of an HTML image; an element of
    another namespace has no such property. *)
Definition get_src (n : node) : value :=
  match n with
  | Elem e _ =>
      match ns e with
      | HTML => Str (src e)
      | _ => Undefined
      end
  | Text _ => Undefined
  end.

(** [el.href]: the reflected property of an HTML link, a string; the
    [href] of an SVG link is an [SVGAnimatedString] object; a MathML
    element has no such property. *)
Definition get_href (n : node) : value :=
  match n with
  | Elem e _ =>
      match ns e with
      | HTML => Str (href e)
      | SVG => SVGAnimatedString
      | MathML => Undefined
      end
  | Text _ => Undefined
  end.

(** The body of the [try] block for one card: the seven queries, then the
    object literal, its properties evaluated in order. *)
Definition extract_card (card : node) (index : nat) : result ProductRecord :=
  let nameEl := querySelector card name_sel in
  let priceEl := querySelector card price_sel in
  let originalPriceEl := querySelector card originalPrice_sel in
  let discountEl := querySelector card discount_sel in
  let imageEl := querySelector card image_sel in
  let linkEl := querySelector card link_sel in
  let ratingEl := querySelector card rating_sel in
  n <- trimmed_text nameEl ;;
  p <- trimmed_text priceEl ;;
  o <- trimmed_text originalPriceEl ;;
  d <- trimmed_text discountEl ;;
  let i := opt_chain imageEl get_src
           <||> opt_chain imageEl (getAttribute "data-src")
           <||> Null in
  let l := opt_chain linkEl get_href <||> Null in
  r <- trimmed_text ratingEl ;;
  Ok {| id := index + 1;
        name := n <||> sentinel;
        price := p <||> sentinel;
        originalPrice := o <||> Null;
        discount := d <||> Null;
        image := i;
        link := l;
        rating := r <||> Null |}.

(** [productElements.forEach((card, index) => { try {..push..} catch {} })],
    with [items] threaded through. *)
Fixpoint forEach (cards : list node) (index : nat)
    (items : list ProductRecord) : list ProductRecord :=
  match cards with
  | [] => items
  | card :: rest =>
      let items' :=
        match extract_card card index with
        | Ok r => items ++ [r]
        | Throw => items
        end in
      forEach rest (S index) items'
  end.

(** The whole routine passed to [page.evaluate]. *)
Definition extract (d : document) : list ProductRecord :=
  forEach (productElements d) 0 [].

End Extract.

(* ================================================================== *)
(** ** The Python program *)

Module Py.
Import DOM.
Import Extract(ProductRecord).

Local Open Scope string_scope.
#[local] Infix "+++" := String.append (at level 60, right associativity).

(** Exceptions raised by the libraries, all subclasses of [Exception];
    [requests.exceptions.Timeout] is kept apart from the other request
    faults because [send_to_n8n] has a clause for it. *)
Inductive exception :=
| PlaywrightTimeoutError (msg : string)
| PlaywrightError (msg : string)
| RequestsTimeout (msg : string)
| RequestException (msg : string)
| OtherException (msg : string).

(** [str(e)] *)
Definition str (e : exception) : string :=
  match e with
  | PlaywrightTimeoutError m | PlaywrightError m | RequestsTimeout m
  | RequestException m | OtherException m => m
  end.

(** What a [raise] carries: an [Exception], or the [SystemExit] of
    [sys.exit], which [except Exception] does not catch. *)
Inductive raised :=
| Exception (e : exception)
| SystemExit (code : nat).

Record Metadata := {
  scraper_version : string;
  execution_time : string
}.

(** The [payload] dictionary of [send_to_n8n]. *)
Record Envelope := {
  timestamp : string;
  source : string;
  category : string;
  total_products : nat;
  products : list ProductRecord;
  metadata : Metadata
}.

(** The observable actions of a run, in the order they happen. *)
Inductive event :=
| Log (message : string)
| PlaywrightStart
| PlaywrightStop
| Launch
| NewContext
| NewPage
| Goto (url : string)
| WaitForSelector (sels : selector_list)
| Scroll
| WaitForTimeout (ms : nat)
| Evaluate
| BrowserClose
| Post (url : string) (payload : Envelope).

Definition trace := list event.

(** A computation: the events it performed and how it ended. *)
Definition M (A : Type) : Type := (trace * (A + raised))%type.

Definition ret {A} (a : A) : M A := ([], inl a).

Definition bind {A B} (m : M A) (k : A -> M B) : M B :=
  match m with
  | (t, inl a) => let (t', r) := k a in ((t ++ t')%list, r)
  | (t, inr e) => (t, inr e)
  end.

#[local] Notation "x <- m ;; k" := (bind m (fun x => k))
  (at level 61, m at next level, right associativity).
#[local] Notation "m ;; k" := (bind m (fun _ => k))
  (at level 61, right associativity).

Definition emit (e : event) : M unit := ([e], inl tt).

Definition raise {A} (r : raised) : M A := ([], inr r).

(** [sys.exit(code)] *)
Definition sys_exit {A} (code : nat) : M A := raise (SystemExit code).

(** [log(message)] prints one line; the timestamp in front of it comes from
    the clock and is not part of the event. *)
Definition log (message : string) : M unit := emit (Log message).

(** An [except] clause: the class test and the handler. *)
Definition clause (A : Type) : Type :=
  ((exception -> bool) * (exception -> M A))%type.

Fixpoint dispatch {A} (clauses : list (clause A)) (e : exception)
    : option (M A) :=
  match clauses with
  | [] => None
  | (test, handler) :: rest =>
      if test e then Some (handler e) else dispatch rest e
  end.

(** [try: body except C1: h1 except C2: h2 ...]: the first clause whose
    class the exception belongs to handles it; [SystemExit] passes. *)
Definition try_except {A} (body : M A) (clauses : list (clause A)) : M A :=
  match body with
  | (t, inr (Exception e)) =>
      match dispatch clauses e with
      | Some (t', r) => ((t ++ t')%list, r)
      | None => body
      end
  | _ => body
  end.

(** A library call: it raises its fault, or happens. *)
Definition call (fault : option exception) (e : event) : M unit :=
  match fault with
  | Some x => raise (Exception x)
  | None => emit e
  end.

(** [with sync_playwright() as p: body].  Leaving the block, by return or
    by exception, runs the manager's exit, which stops the Playwright
    driver. *)
Definition with_sync_playwright {A} (fault : option exception) (body : M A)
    : M A :=
  match fault with
  | Some x => raise (Exception x)
  | None => let (t, r) := body in (PlaywrightStart :: t ++ [PlaywrightStop], r)%list
  end.

(** What lies outside the program in one run: the environment variable,
    the faults the browser calls raise (if any), the documents seen by the
    polls of the selector wait and the document present at evaluation,
    the two clock readings of the envelope, and the webhook's behaviour. *)
Inductive http_outcome :=
| Response (status_code : nat) (text : string)
| Fault (e : exception).

Record World := {
  getenv_webhook : option string;
  start_fault : option exception;
  launch_fault : option exception;
  new_context_fault : option exception;
  new_page_fault : option exception;
  goto_fault : option exception;
  wait_polls : list document;
  wait_message : string;
  scroll_fault : option exception;
  settle_fault : option exception;
  rendered : document;
  evaluate_fault : option exception;
  close_fault : option exception;
  now_timestamp : string;
  now_execution : string;
  webhook : Envelope -> http_outcome
}.

Definition default_webhook : string :=
  "https://api.n8nangelvargas.me/webhook-test/7b44142f-5ae5-4ce8-80ea-e241bd466ad9".

(** [os.getenv('N8N_WEBHOOK_URL', default)] *)
Definition N8N_WEBHOOK_URL (w : World) : string :=
  match getenv_webhook w with
  | Some u => u
  | None => default_webhook
  end.

Definition FALABELLA_URL : string :=
  "https://www.falabella.com.pe/falabella-pe/collection/ver-todo-zapatillas-y-zapatos-hombre?sortBy=derived.price.search%2Casc".

(** The group given to [page.wait_for_selector]. *)
Definition wait_sel : selector_list :=
  [ SClass "product-item"; SClass "search-results-item"; SClass "product-card" ].

(** One poll of the wait (default state: visible): the first element
    matching the group exists and is visible. *)
Definition poll (sels : selector_list) (d : document) : bool :=
  match first_in_list sels d with
  | Some (Elem e _) => visible e
  | _ => false
  end.

(** [page.wait_for_selector(sels, timeout=30000)]: a poll succeeds within
    the bound, or the call raises Playwright's [TimeoutError]. *)
Definition wait_for_selector (w : World) (sels : selector_list) : M unit :=
  if existsb (poll sels) (wait_polls w)
  then emit (WaitForSelector sels)
  else raise (Exception (PlaywrightTimeoutError (wait_message w))).

(** [page.evaluate(routine)] *)
Definition evaluate (w : World) : M (list ProductRecord) :=
  call (evaluate_fault w) Evaluate ;;
  ret (Extract.extract (rendered w)).

(** [f"{n}"] for a length. *)
Definition str_nat (n : nat) : string :=
  NilEmpty.string_of_uint (Nat.to_uint n).

(** [s * n] *)
Fixpoint times (s : string) (n : nat) : string :=
  match n with
  | O => ""
  | S n' => s +++ times s n'
  end.

Definition any_Exception : exception -> bool := fun _ => true.

Definition is_requests_Timeout (e : exception) : bool :=
  match e with
  | RequestsTimeout _ => true
  | _ => false
  end.

Definition scrape_falabella (w : World) : M (list ProductRecord) :=
  log "🚀 Iniciando navegador..." ;;
  try_except
    (with_sync_playwright (start_fault w)
       (call (launch_fault w) Launch ;;
        call (new_context_fault w) NewContext ;;
        call (new_page_fault w) NewPage ;;
        log ("📡 Navegando a: " +++ FALABELLA_URL) ;;
        call (goto_fault w) (Goto FALABELLA_URL) ;;
        log "⏳ Esperando productos..." ;;
        wait_for_selector w wait_sel ;;
        log "📜 Haciendo scroll..." ;;
        call (scroll_fault w) Scroll ;;
        call (settle_fault w) (WaitForTimeout 2000) ;;
        log "🔍 Extrayendo datos..." ;;
        products <- evaluate w ;;
        call (close_fault w) BrowserClose ;;
        log ("✅ Extraídos " +++ str_nat (List.length products) +++ " productos") ;;
        ret products))
    [ (any_Exception,
       fun e => log ("❌ Error en scraping: " +++ str e) ;;
                raise (Exception e)) ].

Definition build_payload (w : World) (products : list ProductRecord)
    : Envelope :=
  {| timestamp := now_timestamp w;
     source := "falabella";
     category := "zapatillas-zapatos-hombre";
     total_products := List.length products;
     products := products;
     metadata := {| scraper_version := "1.0";
                    execution_time := now_execution w |} |}.

(** [requests.post(url, json=payload, ...)] *)
Definition requests_post (w : World) (url : string) (payload : Envelope)
    : M (nat * string) :=
  emit (Post url payload) ;;
  match webhook w payload with
  | Response status_code text => ret (status_code, text)
  | Fault e => raise (Exception e)
  end.

Definition send_to_n8n (w : World) (products : list ProductRecord) : M bool :=
  let payload := build_payload w products in
  log ("📤 Enviando " +++ str_nat (List.length products)
       +++ " productos a n8n...") ;;
  try_except
    (response <- requests_post w (N8N_WEBHOOK_URL w) payload ;;
     let (status_code, text) := response in
     if Nat.eqb status_code 200 then
       log "✅ Datos enviados correctamente a n8n" ;;
       ret true
     else
       log ("❌ Error HTTP " +++ str_nat status_code +++ ": " +++ text) ;;
       ret false)
    [ (is_requests_Timeout,
       fun _ => log "❌ Timeout al enviar a n8n" ;; ret false);
      (any_Exception,
       fun e => log ("❌ Error enviando a n8n: " +++ str e) ;; ret false) ].

Definition main (w : World) : M unit :=
  log (times "=" 50) ;;
  log "🎯 SCRAPER FALABELLA → N8N" ;;
  log (times "=" 50) ;;
  try_except
    (products <- scrape_falabella w ;;
     (match products with
      | [] => log "⚠️ No se encontraron productos" ;; sys_exit 1
      | _ :: _ => ret tt
      end) ;;
     success <- send_to_n8n w products ;;
     if success : bool then
       log (times "=" 50) ;;
       log "✅ PROCESO COMPLETADO EXITOSAMENTE" ;;
       log (times "=" 50) ;;
       sys_exit 0
     else
       log "❌ Error al enviar datos" ;;
       sys_exit 1)
    [ (any_Exception,
       fun e => log ("💥 Error fatal: " +++ str e) ;; sys_exit 1) ].

(** The status the interpreter exits with after running [main()] as the
    script does: the code of a [SystemExit], 1 for an exception that
    reaches the top level, 0 when the script runs to its end. *)
Definition exit_code (m : M unit) : nat :=
  match snd m with
  | inl _ => 0
  | inr (SystemExit code) => code
  | inr (Exception _) => 1
  end.

(** Whether a browser launched in the run is still held after the events
    of a trace.  [browser.close()] releases it.  So does the exit of the
    [with sync_playwright()] block: it stops the Playwright driver, the
    process that launched the browser and owns it, and the driver closes
    its browsers when it goes down. *)
Fixpoint browser_held (held : bool) (t : trace) : bool :=
  match t with
  | [] => held
  | Launch :: t' => browser_held true t'
  | BrowserClose :: t' => browser_held false t'
  | PlaywrightStop :: t' => browser_held false t'
  | _ :: t' => browser_held held t'
  end.

(** The lines [main] prints first. *)
Definition banner : trace :=
  [ Log (times "=" 50); Log "🎯 SCRAPER FALABELLA → N8N"; Log (times "=" 50) ].

(** A page with an element matching the fourth candidate and none
    matching the waited group. *)
Definition only_fourth (p : document) : bool :=
  negb (existsb (is_match wait_sel) (subtrees p))
  && existsb (is_match [Extract.fourth]) (subtrees p).

Definition is_Post (e : event) : bool :=
  match e with
  | Post _ _ => true
  | _ => false
  end.

End Py.

(* ================================================================== *)
(** ** Shapes of field values and the order of the browser calls *)

Module Shape.
Import JS DOM Py.

(** A string without white space at either end. *)
Definition trimmed (s : jsstring) : bool :=
  match s with
  | [] => true
  | c :: _ => negb (is_whitespace c) && negb (is_whitespace (last s c))
  end.

(** A non-empty string without white space at either end. *)
Definition text_value (v : value) : bool :=
  match v with
  | Str (c :: s) => trimmed (c :: s)
  | _ => false
  end.

(** [null], or a non-empty string without white space at either end. *)
Definition optional_text (v : value) : bool :=
  match v with
  | Null => true
  | _ => text_value v
  end.

(** [null], or a non-empty string. *)
Definition optional_string (v : value) : bool :=
  match v with
  | Null => true
  | Str (_ :: _) => true
  | _ => false
  end.

(** [null], a non-empty string, or the object an SVG link has as its
    [href]. *)
Definition optional_link (v : value) : bool :=
  match v with
  | SVGAnimatedString => true
  | _ => optional_string v
  end.

(** The first fault met by [scrape_falabella], its calls taken in the
    order of the source: entering the manager, launch, context, page,
    navigation, the selector wait, the scroll, the settle pause, the
    evaluation, closing the browser. *)
Definition first_fault (w : World) : option exception :=
  match start_fault w with Some e => Some e | None =>
  match launch_fault w with Some e => Some e | None =>
  match new_context_fault w with Some e => Some e | None =>
  match new_page_fault w with Some e => Some e | None =>
  match goto_fault w with Some e => Some e | None =>
  if negb (existsb (poll wait_sel) (wait_polls w))
  then Some (PlaywrightTimeoutError (wait_message w))
  else
  match scroll_fault w with Some e => Some e | None =>
  match settle_fault w with Some e => Some e | None =>
  match evaluate_fault w with Some e => Some e | None =>
  close_fault w
  end end end end end end end end.

(** The line [main] logs between the closing banner lines on success. *)
Definition success_line : event := Log "✅ PROCESO COMPLETADO EXITOSAMENTE".

End Shape.

(* ================================================================== *)
(** ** Sample pages and worlds *)

Module Samples.
Import JS DOM Extract Py.
Local Open Scope string_scope.

Definition el (t : string) (cls : list string) : elem :=
  {| ns := HTML; tag := t; classes := cls; attrs := []; src := []; href := [];
     visible := true; poisoned := false |}.

Definition leaf (t : string) (cls : list string) (text : string) : node :=
  Elem (el t cls) [Text (lit text)].

Definition img (s : string) (a : list (string * jsstring)) : node :=
  Elem {| ns := HTML; tag := "img"; classes := []; attrs := a; src := lit s; href := [];
          visible := true; poisoned := false |} [].

Definition anchor (h : string) (ks : list node) : node :=
  Elem {| ns := HTML; tag := "a"; classes := []; attrs := []; src := []; href := lit h;
          visible := true; poisoned := false |} ks.

Definition poisoned_leaf (t : string) (cls : list string) : node :=
  Elem {| ns := HTML; tag := t; classes := cls; attrs := []; src := []; href := [];
          visible := true; poisoned := true |} [].

Definition item (ks : list node) : node := Elem (el "div" ["product-item"]) ks.

(** A card with every field present. *)
Definition full_card : node :=
  item [ anchor "https://www.falabella.com.pe/p/1"
           [ img "https://img.example/1.jpg" [] ];
         leaf "b" ["product-name"] "  Zapatilla Urbana ";
         leaf "span" ["price"] "S/ 59.90";
         leaf "span" ["original-price"] "S/ 99.90";
         leaf "span" ["discount"] "-40%";
         leaf "span" ["rating"] "4.5" ].

(** A card with nothing inside. *)
Definition bare_card : node := item [].

Definition full_record : ProductRecord :=
  {| id := 1;
     name := Str (lit "Zapatilla Urbana");
     price := Str (lit "S/ 59.90");
     originalPrice := Str (lit "S/ 99.90");
     discount := Str (lit "-40%");
     image := Str (lit "https://img.example/1.jpg");
     link := Str (lit "https://www.falabella.com.pe/p/1");
     rating := Str (lit "4.5") |}.

Definition bare_record : ProductRecord :=
  {| id := 1; name := sentinel; price := sentinel; originalPrice := Null;
     discount := Null; image := Null; link := Null; rating := Null |}.

Definition heading_first_record : ProductRecord :=
  {| id := 1; name := Str (lit "Oferta"); price := sentinel;
     originalPrice := Null; discount := Null; image := Null; link := Null;
     rating := Null |}.

(** A card whose heading precedes the element carrying [.product-name]. *)
Definition heading_first_card : node :=
  item [ leaf "h3" [] "Oferta";
         leaf "span" ["product-name"] "Zapatilla Urbana" ].

(** A card whose name element holds only white space, and whose image has
    an empty [src] and a lazy-load attribute. *)
Definition blank_card : node :=
  item [ leaf "span" ["product-name"] "   ";
         leaf "span" ["price"] "";
         img "" [("data-src", lit "https://img.example/lazy.jpg")] ].

Definition blank_record : ProductRecord :=
  {| id := 1; name := sentinel; price := sentinel; originalPrice := Null;
     discount := Null; image := Str (lit "https://img.example/lazy.jpg");
     link := Null; rating := Null |}.

(** A card whose first [a] is an SVG link, as inside an inline icon. *)
Definition svg_link_card : node :=
  item [ Elem {| ns := SVG; tag := "svg"; classes := []; attrs := [];
                 src := []; href := []; visible := true; poisoned := false |}
           [ Elem {| ns := SVG; tag := "a"; classes := [];
                     attrs := [("href", lit "/p/2")];
                     src := []; href := []; visible := true;
                     poisoned := false |} [] ];
         leaf "span" ["product-name"] "Zapatilla Urbana" ].

Definition svg_link_record : ProductRecord :=
  {| id := 1; name := Str (lit "Zapatilla Urbana"); price := sentinel;
     originalPrice := Null; discount := Null; image := Null;
     link := SVGAnimatedString; rating := Null |}.

(** A card whose name element has a replaced [textContent] getter. *)
Definition poisoned_card : node :=
  item [ poisoned_leaf "span" ["product-name"] ].

Definition three_cards_one_poisoned : document :=
  [ Elem (el "main" []) [ full_card; poisoned_card; bare_card ] ].

Definition testid_card : node :=
  Elem {| ns := HTML; tag := "div"; classes := ["pod"];
          attrs := [("data-testid", lit "product-card")];
          src := []; href := []; visible := true; poisoned := false |}
       [ leaf "span" ["product-name"] "Zapatilla Urbana" ].

Definition testid_page : document :=
  [ Elem (el "main" []) [ testid_card; testid_card ] ].

(** A world without faults, showing [d] throughout, whose webhook answers
    with [reply]. *)
Definition world (d : document) (reply : http_outcome) : World :=
  {| getenv_webhook := None;
     start_fault := None;
     launch_fault := None;
     new_context_fault := None;
     new_page_fault := None;
     goto_fault := None;
     wait_polls := [d; d];
     wait_message := "Timeout 30000ms exceeded.";
     scroll_fault := None;
     settle_fault := None;
     rendered := d;
     evaluate_fault := None;
     close_fault := None;
     now_timestamp := "2024-01-01T00:00:00";
     now_execution := "2024-01-01T00:00:00";
     webhook := fun _ => reply |}.

(** The navigation runs into its timeout. *)
Definition stalled_world : World :=
  {| getenv_webhook := None;
     start_fault := None;
     launch_fault := None;
     new_context_fault := None;
     new_page_fault := None;
     goto_fault := Some (PlaywrightTimeoutError "Timeout 60000ms exceeded.");
     wait_polls := [];
     wait_message := "Timeout 30000ms exceeded.";
     scroll_fault := None;
     settle_fault := None;
     rendered := [];
     evaluate_fault := None;
     close_fault := None;
     now_timestamp := "2024-01-01T00:00:00";
     now_execution := "2024-01-01T00:00:00";
     webhook := fun _ => Response 200 "ok" |}.

(** Everything works until [browser.close()] fails. *)
Definition close_fails_world : World :=
  {| getenv_webhook := None;
     start_fault := None;
     launch_fault := None;
     new_context_fault := None;
     new_page_fault := None;
     goto_fault := None;
     wait_polls := [[full_card]];
     wait_message := "Timeout 30000ms exceeded.";
     scroll_fault := None;
     settle_fault := None;
     rendered := [full_card];
     evaluate_fault := None;
     close_fault := Some (PlaywrightError "Target closed");
     now_timestamp := "2024-01-01T00:00:00";
     now_execution := "2024-01-01T00:00:00";
     webhook := fun _ => Response 200 "ok" |}.

(** The products appear for the wait and are gone at evaluation. *)
Definition vanishing_world : World :=
  {| getenv_webhook := Some "https://n8n.example/webhook/x";
     start_fault := None;
     launch_fault := None;
     new_context_fault := None;
     new_page_fault := None;
     goto_fault := None;
     wait_polls := [[]; [full_card]];
     wait_message := "Timeout 30000ms exceeded.";
     scroll_fault := None;
     settle_fault := None;
     rendered := [];
     evaluate_fault := None;
     close_fault := None;
     now_timestamp := "2024-01-01T00:00:00";
     now_execution := "2024-01-01T00:00:01";
     webhook := fun _ => Response 200 "ok" |}.

End Samples.

(* ================================================================== *)
(** ** Facts about queries *)

Section Queries.
Import JS DOM.

Lemma first_in_Elem sels e ks :
  first_in sels (Elem e ks) =
  if matches_any sels e then Some (Elem e ks) else first_in_list sels ks.
Proof.
  simpl. destruct (matches_any sels e); [reflexivity|].
  induction ks as [|k ks IH]; simpl; [reflexivity|].
  destruct (first_in sels k); [reflexivity|exact IH].
Qed.

Lemma subtree_Elem e ks : subtree (Elem e ks) = Elem e ks :: subtrees ks.
Proof. reflexivity. Qed.

Lemma find_app {A} (f : A -> bool) (l1 l2 : list A) :
  find f (l1 ++ l2) =
  match find f l1 with Some x => Some x | None => find f l2 end.
Proof.
  induction l1 as [|a l1 IH]; simpl; [reflexivity|].
  destruct (f a); [reflexivity|exact IH].
Qed.

(** The depth-first search returns the first matching element of the
    tree-order listing. *)
Lemma first_in_find sels n :
  first_in sels n = find (is_match sels) (subtree n).
Proof.
  induction n using node_rect' with
    (Q := fun ks => first_in_list sels ks = find (is_match sels) (subtrees ks)).
  - reflexivity.
  - rewrite first_in_Elem, subtree_Elem. simpl.
    destruct (matches_any sels e); [reflexivity|assumption].
  - reflexivity.
  - simpl. rewrite find_app, IHn, IHn0. reflexivity.
Qed.

Lemma first_in_list_find sels ks :
  first_in_list sels ks = find (is_match sels) (subtrees ks).
Proof.
  induction ks as [|k ks IH]; simpl; [reflexivity|].
  now rewrite find_app, first_in_find, IH.
Qed.

Lemma querySelector_find card sels :
  querySelector card sels = find (is_match sels) (descendants card).
Proof. apply first_in_list_find. Qed.

Lemma find_split {A} (f : A -> bool) (l : list A) x :
  find f l = Some x ->
  exists before after,
    l = before ++ x :: after /\ f x = true /\
    forall y, In y before -> f y = false.
Proof.
  induction l as [|a l IH]; simpl; [discriminate|].
  destruct (f a) eqn:Fa.
  - intros [= <-]. exists [], l. repeat split; auto. intros y [].
  - intros H. destruct (IH H) as (b & c & -> & Hx & Hb).
    exists (a :: b), c. repeat split; auto.
    intros y [<-|Hy]; auto.
Qed.

Lemma existsb_Permutation {A} (f : A -> bool) (l l' : list A) :
  Permutation l l' -> existsb f l = existsb f l'.
Proof.
  induction 1; simpl.
  - reflexivity.
  - now rewrite IHPermutation.
  - destruct (f x), (f y); reflexivity.
  - congruence.
Qed.

Lemma is_match_Permutation sels sels' n :
  Permutation sels sels' -> is_match sels n = is_match sels' n.
Proof.
  intros H. destruct n as [|e ks]; simpl; [reflexivity|].
  now apply existsb_Permutation.
Qed.

Lemma find_ext_all {A} (f g : A -> bool) (l : list A) :
  (forall x, f x = g x) -> find f l = find g l.
Proof.
  intros E. induction l as [|a l IH]; simpl; [reflexivity|].
  now rewrite E, IH.
Qed.

(** A query answers [null] exactly when no descendant matches. *)
Lemma querySelector_None card sels :
  querySelector card sels = None <->
  existsb (is_match sels) (descendants card) = false.
Proof.
  rewrite querySelector_find. split.
  - intros H. destruct (existsb _ _) eqn:E; [|reflexivity].
    apply existsb_exists in E as (x & Hin & Hx).
    now rewrite (find_none _ _ H x Hin) in Hx.
  - intros H. destruct (find _ _) eqn:E; [|reflexivity].
    apply find_some in E as [Hin Hx].
    assert (existsb (is_match sels) (descendants card) = true)
      by (apply existsb_exists; eauto).
    congruence.
Qed.

Lemma unmatched_None card sels :
  unmatched card sels = true -> querySelector card sels = None.
Proof.
  unfold unmatched. intros H. apply querySelector_None.
  now apply negb_true_iff.
Qed.

(** A query only ever returns element nodes. *)
Lemma querySelector_Elem card sels n :
  querySelector card sels = Some n -> exists e ks, n = Elem e ks.
Proof.
  rewrite querySelector_find. intros H. apply find_some in H as [_ H].
  destruct n as [|e ks]; [discriminate|eauto].
Qed.

End Queries.

(* ================================================================== *)
(** ** Facts about [trim] *)

Section Strings.
Import JS.

Lemma trim_start_nil s : trim_start s = [] <-> blank s = true.
Proof.
  induction s as [|c s IH]; simpl; [tauto|].
  destruct (is_whitespace c); simpl; [exact IH|].
  split; discriminate.
Qed.

Lemma trim_start_head c s t :
  trim_start s = c :: t -> is_whitespace c = false.
Proof.
  induction s as [|a s IH]; simpl; [discriminate|].
  destruct (is_whitespace a) eqn:E; [exact IH|].
  now intros [= <- _].
Qed.

Lemma blank_rev s : blank (rev s) = blank s.
Proof.
  unfold blank. induction s as [|c s IH]; simpl; [reflexivity|].
  rewrite forallb_app, IH. simpl. rewrite andb_true_r. apply andb_comm.
Qed.

(** [s.trim()] is the empty string exactly when [s] is empty or holds
    white space only. *)
Lemma trim_nil s : trim s = [] <-> blank s = true.
Proof.
  unfold trim, trim_end. split.
  - intros H. apply (f_equal (@rev N)) in H. rewrite rev_involutive in H.
    simpl in H. apply trim_start_nil in H. rewrite blank_rev in H.
    destruct (trim_start s) as [|c t] eqn:E.
    + now apply trim_start_nil.
    + apply trim_start_head in E. simpl in H. now rewrite E in H.
  - intros H. apply trim_start_nil in H. now rewrite H.
Qed.

End Strings.

(* ================================================================== *)
(** ** Facts about the per-card loop *)

Section Loop.
Import JS DOM Extract.

Lemma bind_Ok {A B} (m : result A) (k : A -> result B) b :
  Extract.bind m k = Ok b -> exists a, m = Ok a /\ k a = Ok b.
Proof. destruct m; simpl; [eauto|discriminate]. Qed.

(** What a card that does not throw pushes. *)
Lemma extract_card_Ok card index r :
  extract_card card index = Ok r ->
  exists n p o d g,
    trimmed_text (querySelector card name_sel) = Ok n /\
    trimmed_text (querySelector card price_sel) = Ok p /\
    trimmed_text (querySelector card originalPrice_sel) = Ok o /\
    trimmed_text (querySelector card discount_sel) = Ok d /\
    trimmed_text (querySelector card rating_sel) = Ok g /\
    r = {| id := index + 1;
           name := n <||> sentinel;
           price := p <||> sentinel;
           originalPrice := o <||> Null;
           discount := d <||> Null;
           image := opt_chain (querySelector card image_sel) get_src
                    <||> opt_chain (querySelector card image_sel)
                           (getAttribute "data-src")
                    <||> Null;
           link := opt_chain (querySelector card link_sel) get_href <||> Null;
           rating := g <||> Null |}.
Proof.
  unfold extract_card. intros H.
  apply bind_Ok in H as (n & Hn & H).
  apply bind_Ok in H as (p & Hp & H).
  apply bind_Ok in H as (o & Ho & H).
  apply bind_Ok in H as (d & Hd & H). cbv zeta in H.
  apply bind_Ok in H as (g & Hg & H).
  injection H as <-. exists n, p, o, d, g. repeat split; assumption.
Qed.

Lemma extract_card_id card index r :
  extract_card card index = Ok r -> id r = index + 1.
Proof.
  intros H. apply extract_card_Ok in H as (n & p & o & d & g & H).
  decompose [and] H. subst r. reflexivity.
Qed.

(** [items] only grows at its end. *)
Lemma forEach_items cards index items :
  forEach cards index items = items ++ forEach cards index [].
Proof.
  revert index items. induction cards as [|card cards IH]; intros; simpl.
  - now rewrite app_nil_r.
  - destruct (extract_card card index) as [r|].
    + rewrite (IH _ (items ++ [r])), (IH _ ([] ++ [r])).
      now rewrite <- app_assoc.
    + apply IH.
Qed.

Lemma forEach_cons card cards index :
  forEach (card :: cards) index [] =
  match extract_card card index with
  | Ok r => r :: forEach cards (S index) []
  | Throw => forEach cards (S index) []
  end.
Proof.
  simpl. destruct (extract_card card index) as [r|]; [|reflexivity].
  now rewrite forEach_items.
Qed.

(** Every pushed record comes from the card at its position. *)
Lemma forEach_In cards index r :
  In r (forEach cards index []) <->
  exists k card,
    nth_error cards k = Some card /\ extract_card card (index + k) = Ok r.
Proof.
  revert index. induction cards as [|card cards IH]; intros index.
  - simpl. split; [tauto|]. intros (k & c & H & _). now destruct k.
  - rewrite forEach_cons. split.
    + intros H.
      assert (In r (forEach cards (S index) []) \/
              extract_card card index = Ok r) as [H'|H'].
      { destruct (extract_card card index) as [r'|]; [|now left].
        destruct H as [->|H]; [now right|now left]. }
      * apply IH in H' as (k & c & Hk & Hc). exists (S k), c.
        split; [exact Hk|]. now rewrite Nat.add_succ_r.
      * exists 0, card. split; [reflexivity|]. now rewrite Nat.add_0_r.
    + intros (k & c & Hk & Hc). destruct k as [|k].
      * injection Hk as <-. rewrite Nat.add_0_r in Hc. rewrite Hc. now left.
      * assert (In r (forEach cards (S index) [])) as H.
        { apply IH. exists k, c. split; [exact Hk|].
          now rewrite Nat.add_succ_r in Hc. }
        destruct (extract_card card index); [now right|exact H].
Qed.

Lemma forEach_id_above cards index r :
  In r (forEach cards index []) -> index < id r.
Proof.
  intros H. apply forEach_In in H as (k & c & _ & H).
  apply extract_card_id in H. lia.
Qed.

(** The [id]s come out strictly increasing. *)
Lemma forEach_sorted cards index :
  StronglySorted lt (map id (forEach cards index [])).
Proof.
  revert index. induction cards as [|card cards IH]; intros index.
  - constructor.
  - rewrite forEach_cons. destruct (extract_card card index) as [r|] eqn:E.
    + simpl. constructor; [apply IH|].
      apply Forall_forall. intros x Hx.
      apply in_map_iff in Hx as (r' & <- & Hr').
      apply forEach_id_above in Hr'. apply extract_card_id in E. lia.
    + apply IH.
Qed.

(** Without a throwing card the [id]s are consecutive. *)
Lemma forEach_no_throw cards index :
  (forall k card, nth_error cards k = Some card ->
                  extract_card card (index + k) <> Throw) ->
  map id (forEach cards index []) = seq (index + 1) (List.length cards).
Proof.
  revert index. induction cards as [|card cards IH]; intros index H.
  - reflexivity.
  - rewrite forEach_cons.
    destruct (extract_card card index) as [r|] eqn:E.
    + simpl. apply extract_card_id in E. rewrite E. f_equal.
      rewrite IH; [f_equal; lia|].
      intros k c Hk. specialize (H (S k) c Hk).
      now rewrite Nat.add_succ_r in H.
    + exfalso. apply (H 0 card eq_refl). now rewrite Nat.add_0_r.
Qed.

End Loop.

(* ================================================================== *)
(** ** The extraction result *)

Section ExtractionResult.
Import JS DOM Extract.

Lemma StronglySorted_lt_NoDup l : StronglySorted lt l -> NoDup l.
Proof.
  induction 1 as [|a l _ IH Ha]; constructor; [|exact IH].
  intros Hin. rewrite Forall_forall in Ha. specialize (Ha a Hin). lia.
Qed.

Lemma extract_In d r :
  In r (extract d) ->
  exists card,
    nth_error (productElements d) (id r - 1) = Some card /\
    extract_card card (id r - 1) = Ok r.
Proof.
  unfold extract. intros H. apply forEach_In in H as (k & card & Hk & Hc).
  simpl in Hc. pose proof (extract_card_id _ _ _ Hc) as Hid.
  replace (id r - 1) with k by lia. eauto.
Qed.

(** C2, as stated, fails: with three matched containers of which the
    second throws inside the [try] block, the result holds two records
    whose [id]s are 1 and 3, not 1 and 2. *)
Lemma ids_dense_counterexample :
  extract_card Samples.poisoned_card 1 = Throw /\
  map id (extract Samples.three_cards_one_poisoned) = [1; 3] /\
  map id (extract Samples.three_cards_one_poisoned)
  <> seq 1 (List.length (extract Samples.three_cards_one_poisoned)).
Proof. repeat split; vm_compute; congruence. Qed.

(** C2, amended: the [id]s of an extraction result are strictly
    increasing, hence without duplicates; each record's [id] is the
    1-based position, among the matched containers, of the container it
    was extracted from; and when no container throws inside the per-card
    loop the [id]s are exactly 1..N, N being the number of containers. *)
Theorem ids_are_container_positions (d : document) :
  StronglySorted lt (map id (extract d)) /\
  NoDup (map id (extract d)) /\
  (forall r, In r (extract d) ->
     1 <= id r <= List.length (productElements d) /\
     exists card, nth_error (productElements d) (id r - 1) = Some card /\
                  extract_card card (id r - 1) = Ok r) /\
  ((forall card index, In card (productElements d) ->
                       extract_card card index <> Throw) ->
   List.length (extract d) = List.length (productElements d) /\
   map id (extract d) = seq 1 (List.length (extract d))).
Proof.
  assert (S : StronglySorted lt (map id (extract d)))
    by apply forEach_sorted.
  split; [exact S|]. split; [now apply StronglySorted_lt_NoDup|]. split.
  - intros r Hr. pose proof (forEach_id_above _ _ _ Hr) as Hpos.
    apply extract_In in Hr as (card & Hn & Hc). split; [|eauto].
    assert (id r - 1 < List.length (productElements d))
      by (apply nth_error_Some; congruence).
    lia.
  - intros H.
    assert (E : map id (extract d) = seq 1 (List.length (productElements d))).
    { apply (forEach_no_throw (productElements d) 0).
      intros k card Hk. apply H. eapply nth_error_In, Hk. }
    assert (L : List.length (extract d) = List.length (productElements d)).
    { rewrite <- (length_map id), E. apply length_seq. }
    split; [exact L|]. now rewrite L.
Qed.

(** Two containers, neither throwing: the [id]s are 1 and 2. *)
Lemma ids_are_container_positions_witness :
  map id (extract [Samples.full_card; Samples.bare_card]) =
  seq 1 (List.length (extract [Samples.full_card; Samples.bare_card])).
Proof.
  apply (ids_are_container_positions [Samples.full_card; Samples.bare_card]).
  intros card index H. vm_compute in H.
  destruct H as [<-|[<-|[]]]; cbv; discriminate.
Defined.

(** C4, as stated, fails: in a card whose [h3] heading precedes the
    element of class [product-name], both sub-selectors of the name list
    match; the routine takes the heading, the earlier element of the
    document, and not the element of the earlier-listed [.product-name]. *)
Lemma first_listed_counterexample :
  querySelector Samples.heading_first_card name_sel
  <> first_listed Samples.heading_first_card name_sel /\
  first_listed Samples.heading_first_card name_sel
  = Some (Samples.leaf "span" ["product-name"%string] "Zapatilla Urbana") /\
  exists r, extract_card Samples.heading_first_card 0 = Ok r /\
            name r = Str (lit "Oferta").
Proof.
  split; [vm_compute; discriminate|]. split; [reflexivity|].
  eexists. split; reflexivity.
Qed.

(** What a query on a selector group answers: the first descendant in
    document order matching a member of the group, whatever the order of
    the members; for a group of one member, that member's first match. *)
Lemma querySelector_document_order (card : node) (sels : selector_list) :
  match querySelector card sels with
  | Some el =>
      exists before after,
        descendants card = before ++ el :: after /\
        is_match sels el = true /\
        forall n, In n before -> is_match sels n = false
  | None => forall n, In n (descendants card) -> is_match sels n = false
  end /\
  (forall sels', Permutation sels sels' ->
                 querySelector card sels' = querySelector card sels) /\
  (forall s, querySelector card [s] = first_listed card [s]).
Proof.
  split; [|split].
  - rewrite querySelector_find.
    destruct (find (is_match sels) (descendants card)) as [el|] eqn:E.
    + now apply find_split.
    + intros n Hn. exact (find_none _ _ E n Hn).
  - intros sels' HP. rewrite !querySelector_find. apply find_ext_all.
    intros n. symmetry. now apply is_match_Permutation.
  - intros s. simpl. now destruct (querySelector card [s]).
Qed.

(** C5: in every record of an extraction result, a field none of whose
    sub-selectors matches inside the record's container holds the sentinel
    (name, price) or null (originalPrice, discount, image, link, rating). *)
Theorem missing_field_fallbacks (d : document) (r : ProductRecord) :
  In r (extract d) ->
  exists card,
    nth_error (productElements d) (id r - 1) = Some card /\
    (unmatched card name_sel = true -> name r = sentinel) /\
    (unmatched card price_sel = true -> price r = sentinel) /\
    (unmatched card originalPrice_sel = true -> originalPrice r = Null) /\
    (unmatched card discount_sel = true -> discount r = Null) /\
    (unmatched card image_sel = true -> image r = Null) /\
    (unmatched card link_sel = true -> link r = Null) /\
    (unmatched card rating_sel = true -> rating r = Null).
Proof.
  intros Hr. apply extract_In in Hr as (card & Hn & Hc).
  exists card. split; [exact Hn|].
  apply extract_card_Ok in Hc as (n & p & o & dd & g & Hc).
  destruct Hc as (En & Ep & Eo & Ed & Eg & ->). simpl.
  repeat split; intros U; apply unmatched_None in U; rewrite U in *;
    simpl in *;
    repeat match goal with H : Ok _ = Ok _ |- _ => injection H as <- end;
    reflexivity.
Qed.

(** The record of an empty card. *)
Lemma missing_field_fallbacks_witness :
  exists card,
    nth_error (productElements [Samples.bare_card])
              (id Samples.bare_record - 1) = Some card /\
    (unmatched card name_sel = true -> name Samples.bare_record = sentinel) /\
    (unmatched card price_sel = true -> price Samples.bare_record = sentinel) /\
    (unmatched card originalPrice_sel = true ->
     originalPrice Samples.bare_record = Null) /\
    (unmatched card discount_sel = true -> discount Samples.bare_record = Null) /\
    (unmatched card image_sel = true -> image Samples.bare_record = Null) /\
    (unmatched card link_sel = true -> link Samples.bare_record = Null) /\
    (unmatched card rating_sel = true -> rating Samples.bare_record = Null).
Proof.
  apply (missing_field_fallbacks [Samples.bare_card] Samples.bare_record).
  vm_compute. left. reflexivity.
Defined.

Lemma get_textContent_Ok n t :
  get_textContent n = Ok t -> t = textContent n.
Proof.
  destruct n as [s|e ks]; simpl; [congruence|].
  destruct (poisoned e); [discriminate|congruence].
Qed.

Lemma trimmed_text_blank el v :
  trimmed_text (Some el) = Ok v -> blank (textContent el) = true ->
  v = Str [].
Proof.
  simpl. intros H B. apply bind_Ok in H as (t & Ht & [= <-]).
  apply get_textContent_Ok in Ht. subst t. apply trim_nil in B.
  now rewrite B.
Qed.

(** C10: the fallbacks also fire on a matched element.  In every record
    of an extraction result, a matched name or price element whose text is
    empty or white space only yields the sentinel, and a matched image
    whose [src] is the empty string yields its [data-src] attribute when
    that is a non-empty string and null otherwise.  So there are records
    with the sentinel as [name] whose container has a matching name
    element. *)
Theorem blank_text_fallbacks :
  (forall d r, In r (extract d) ->
     exists card,
       nth_error (productElements d) (id r - 1) = Some card /\
       (forall el, querySelector card name_sel = Some el ->
                   blank (textContent el) = true -> name r = sentinel) /\
       (forall el, querySelector card price_sel = Some el ->
                   blank (textContent el) = true -> price r = sentinel) /\
       (forall e ks, querySelector card image_sel = Some (Elem e ks) ->
                     src e = [] ->
                     image r = match assoc "data-src" (attrs e) with
                               | Some (c :: v) => Str (c :: v)
                               | _ => Null
                               end)) /\
  (exists d r card el,
     In r (extract d) /\
     nth_error (productElements d) (id r - 1) = Some card /\
     querySelector card name_sel = Some el /\
     name r = sentinel).
Proof.
  split.
  - intros d r Hr. apply extract_In in Hr as (card & Hn & Hc).
    exists card. split; [exact Hn|].
    apply extract_card_Ok in Hc as (n & p & o & dd & g & Hc).
    destruct Hc as (En & Ep & _ & _ & _ & ->). simpl.
    split; [|split].
    + intros el Q B. rewrite Q in En.
      now rewrite (trimmed_text_blank _ _ En B).
    + intros el Q B. rewrite Q in Ep.
      now rewrite (trimmed_text_blank _ _ Ep B).
    + intros e ks Q S. rewrite Q. simpl. rewrite S.
      destruct (ns e), (assoc "data-src" (attrs e)) as [[|c v]|];
        reflexivity.
  - exists [Samples.blank_card], Samples.blank_record, Samples.blank_card.
    eexists. split; [vm_compute; left; reflexivity|].
    split; [reflexivity|]. split; reflexivity.
Qed.

(** The record of a card with a blank name, an empty price and a lazy
    image. *)
Lemma blank_text_fallbacks_witness :
  name Samples.blank_record = sentinel /\
  price Samples.blank_record = sentinel /\
  image Samples.blank_record = Str (lit "https://img.example/lazy.jpg").
Proof.
  destruct blank_text_fallbacks as [H _].
  destruct (H [Samples.blank_card] Samples.blank_record) as (card & Hn & Hname & Hprice & Himage).
  { vm_compute. left. reflexivity. }
  injection Hn as <-.
  split; [|split].
  - eapply Hname; reflexivity.
  - eapply Hprice; reflexivity.
  - exact (Himage _ _ eq_refl eq_refl).
Defined.

Lemma is_match_some sels n :
  is_match sels n = true <-> exists s, In s sels /\ is_match [s] n = true.
Proof.
  destruct n as [t|e ks]; simpl.
  - split; [discriminate|]. intros (s & _ & H). discriminate.
  - unfold matches_any. rewrite existsb_exists. split.
    + intros (s & Hs & H). exists s. split; [exact Hs|].
      simpl. now rewrite H.
    + intros (s & Hs & H). exists s. split; [exact Hs|].
      simpl in H. now rewrite orb_false_r in H.
Qed.

Lemma find_skip {A} (f : A -> bool) (before after : list A) x :
  (forall y, In y before -> f y = false) -> f x = true ->
  find f (before ++ x :: after) = Some x.
Proof.
  intros Hb Hx. induction before as [|a l IH]; simpl.
  - now rewrite Hx.
  - rewrite (Hb a) by now left. apply IH. intros y Hy. apply Hb. now right.
Qed.

(** The element a field's query returns. *)
Lemma first_in_document_querySelector card sels el :
  first_in_document card sels el -> querySelector card sels = Some el.
Proof.
  intros (before & after & E & M & B). rewrite querySelector_find, E.
  apply find_skip.
  - intros n Hn. destruct (is_match sels n) eqn:F; [|reflexivity].
    apply is_match_some in F as (s & Hs & F).
    now rewrite (B n s Hn Hs) in F.
  - now apply is_match_some.
Qed.

Lemma trimmed_text_of el v :
  trimmed_text (Some el) = Ok v -> v = Str (trim (textContent el)).
Proof.
  simpl. intros H. apply bind_Ok in H as (t & Ht & [= <-]).
  apply get_textContent_Ok in Ht. now subst t.
Qed.

(** C4, amended: for every record of an extraction result and every
    field, the value is read from the first element in document order,
    among the descendants of the record's container, that matches any
    sub-selector of the field's list, whichever sub-selector that is and
    wherever it stands in the list: the trimmed text of that element for
    name, price, originalPrice, discount and rating, its [src] (then its
    [data-src]) for image and its [href] for link, each followed by the
    field's fallback. *)
Theorem fields_read_first_in_document_order
    (d : document) (r : ProductRecord) :
  In r (extract d) ->
  exists card,
    nth_error (productElements d) (id r - 1) = Some card /\
    (forall el, first_in_document card name_sel el ->
       name r = Str (trim (textContent el)) <||> sentinel) /\
    (forall el, first_in_document card price_sel el ->
       price r = Str (trim (textContent el)) <||> sentinel) /\
    (forall el, first_in_document card originalPrice_sel el ->
       originalPrice r = Str (trim (textContent el)) <||> Null) /\
    (forall el, first_in_document card discount_sel el ->
       discount r = Str (trim (textContent el)) <||> Null) /\
    (forall el, first_in_document card image_sel el ->
       image r = get_src el <||> getAttribute "data-src" el <||> Null) /\
    (forall el, first_in_document card link_sel el ->
       link r = get_href el <||> Null) /\
    (forall el, first_in_document card rating_sel el ->
       rating r = Str (trim (textContent el)) <||> Null).
Proof.
  intros Hr. apply extract_In in Hr as (card & Hn & Hc).
  exists card. split; [exact Hn|].
  apply extract_card_Ok in Hc as (n & p & o & dd & g & Hc).
  destruct Hc as (En & Ep & Eo & Ed & Eg & ->). simpl.
  repeat split; intros el F; apply first_in_document_querySelector in F;
    rewrite F in *; try reflexivity;
    match goal with
    | H : trimmed_text (Some el) = Ok ?v |- ?v <||> _ = _ =>
        now rewrite (trimmed_text_of el v H)
    end.
Qed.

(** The card whose heading precedes its [.product-name] element: the
    name is the text of the heading. *)
Lemma fields_read_first_in_document_order_witness :
  name Samples.heading_first_record = Str (lit "Oferta").
Proof.
  destruct (fields_read_first_in_document_order
              [Samples.heading_first_card] Samples.heading_first_record)
    as (card & Hn & Hname & _).
  { vm_compute. left. reflexivity. }
  injection Hn as <-.
  apply (Hname (Samples.leaf "h3" [] "Oferta")).
  exists [], [Samples.leaf "span" ["product-name"%string] "Zapatilla Urbana"].
  split; [reflexivity|]. split.
  - exists (STag "h3"). split; [simpl; tauto|reflexivity].
  - intros n s [].
Defined.

End ExtractionResult.

(* ================================================================== *)
(** ** Runs of the Python program *)

Section Runs.
Import JS DOM Extract Py.

Ltac unfold_run :=
  unfold scrape_falabella, with_sync_playwright, wait_for_selector, evaluate,
    call, log, sys_exit, emit, raise, ret.

Ltac split_run :=
  repeat (cbn -[extract str_nat String.append existsb];
          match goal with
          | |- context [match ?x with Some _ => _ | None => _ end] =>
              destruct x eqn:?
          | |- context [if ?b then _ else _] => destruct b eqn:?
          end).

(** [scrape_falabella] returns a list or raises an [Exception]; it never
    exits the process itself. *)
Lemma scrape_falabella_outcome w :
  (exists ps, snd (scrape_falabella w) = inl ps /\ ps = extract (rendered w))
  \/ (exists e, snd (scrape_falabella w) = inr (Exception e)).
Proof.
  unfold_run. split_run; cbn -[extract str_nat String.append existsb]; eauto.
Qed.

(** No request is made while scraping. *)
Lemma scrape_falabella_no_Post w :
  existsb is_Post (fst (scrape_falabella w)) = false.
Proof.
  unfold_run. split_run; cbn -[extract str_nat String.append existsb];
    reflexivity.
Qed.

(** One run of [send_to_n8n]: the announcement, the request, and one line
    for the outcome; the function returns and never raises. *)
Lemma send_to_n8n_run w ps :
  send_to_n8n w ps =
  ([ Log ("📤 Enviando " ++ str_nat (List.length ps)
          ++ " productos a n8n...")%string;
     Post (N8N_WEBHOOK_URL w) (build_payload w ps);
     Log (match webhook w (build_payload w ps) with
          | Response c body =>
              if Nat.eqb c 200 then "✅ Datos enviados correctamente a n8n"
              else "❌ Error HTTP " ++ str_nat c ++ ": " ++ body
          | Fault (RequestsTimeout _) => "❌ Timeout al enviar a n8n"
          | Fault e => "❌ Error enviando a n8n: " ++ str e
          end)%string ],
   inl (match webhook w (build_payload w ps) with
        | Response c _ => Nat.eqb c 200
        | Fault _ => false
        end)).
Proof.
  unfold send_to_n8n, requests_post, log, emit, ret, raise.
  cbn -[str_nat String.append Nat.eqb build_payload].
  destruct (webhook w (build_payload w ps)) as [c body|e].
  - cbn -[str_nat String.append Nat.eqb build_payload].
    destruct (Nat.eqb c 200); reflexivity.
  - destruct e; reflexivity.
Qed.

(** [main] in terms of the runs of its two callees. *)
Lemma main_run w :
  main w =
  match scrape_falabella w with
  | (t, inl []) =>
      (banner ++ t ++ [Log "⚠️ No se encontraron productos"],
       inr (SystemExit 1))
  | (t, inl ps) =>
      match send_to_n8n w ps with
      | (t', inl true) =>
          (banner ++ t ++ t' ++
             [ Log (times "=" 50); Log "✅ PROCESO COMPLETADO EXITOSAMENTE";
               Log (times "=" 50) ],
           inr (SystemExit 0))
      | (t', inl false) =>
          (banner ++ t ++ t' ++ [Log "❌ Error al enviar datos"],
           inr (SystemExit 1))
      | (t', inr (Exception e)) =>
          (banner ++ t ++ t' ++ [Log ("💥 Error fatal: " ++ str e)%string],
           inr (SystemExit 1))
      | (t', inr (SystemExit c)) => (banner ++ t ++ t', inr (SystemExit c))
      end
  | (t, inr (Exception e)) =>
      (banner ++ t ++ [Log ("💥 Error fatal: " ++ str e)%string],
       inr (SystemExit 1))
  | (t, inr (SystemExit c)) => (banner ++ t, inr (SystemExit c))
  end.
Proof.
  unfold main, banner, log, sys_exit, emit, raise, ret.
  destruct (scrape_falabella w) as [t [[|p ps]|[e|c]]];
    cbn -[times String.append send_to_n8n];
    rewrite ?app_nil_r, <- ?app_assoc; try reflexivity.
  destruct (send_to_n8n w (p :: ps)) as [t' [[|]|[e|c]]];
    cbn -[times String.append];
    rewrite ?app_nil_r, <- ?app_assoc; reflexivity.
Qed.

Lemma send_to_n8n_returns w ps :
  exists b, snd (send_to_n8n w ps) = inl b.
Proof. rewrite send_to_n8n_run. simpl. eexists. reflexivity. Qed.

(** C1: the process exits with 0 exactly when extraction returned at
    least one record and delivery returned true; it exits with 1 exactly
    when extraction returned no record, or delivery returned false, or
    extraction raised; and it exits with no other code. *)
Theorem exit_code_classification (w : World) :
  (exit_code (main w) = 0 <->
   exists ps, snd (scrape_falabella w) = inl ps /\ ps <> [] /\
              snd (send_to_n8n w ps) = inl true) /\
  (exit_code (main w) = 1 <->
   snd (scrape_falabella w) = inl [] \/
   (exists ps, snd (scrape_falabella w) = inl ps /\ ps <> [] /\
               snd (send_to_n8n w ps) = inl false) \/
   (exists e, snd (scrape_falabella w) = inr (Exception e))) /\
  (exit_code (main w) = 0 \/ exit_code (main w) = 1).
Proof.
  pose proof (scrape_falabella_outcome w) as HS. rewrite main_run.
  destruct (scrape_falabella w) as [t [[|p ps]|[e|c]]]; simpl in HS |- *.
  - split; [|split]; [| |now right].
    + split; [discriminate|]. intros (ps & [= <-] & H & _). now elim H.
    + split; [now left|reflexivity].
  - destruct (send_to_n8n_returns w (p :: ps)) as [b Hb].
    destruct (send_to_n8n w (p :: ps)) as [t' r] eqn:E. simpl in Hb. subst r.
    destruct b; simpl; (split; [|split]); [| |now left| | |now right].
    + split; [|reflexivity]. intros _. exists (p :: ps).
      rewrite E. repeat split; congruence.
    + split; [discriminate|].
      intros [H|[(ps' & [= <-] & _ & H)|(e & H)]]; try discriminate.
      rewrite E in H. discriminate.
    + split; [discriminate|]. intros (ps' & [= <-] & _ & H).
      rewrite E in H. discriminate.
    + split; [|reflexivity]. intros _. right. left. exists (p :: ps).
      rewrite E. repeat split; congruence.
  - split; [|split]; [| |now right].
    + split; [discriminate|]. intros (ps & H & _). discriminate.
    + split; [|reflexivity]. intros _. right. right. now exists e.
  - destruct HS as [(ps & H & _)|(e & H)]; discriminate.
Qed.

(** One card and a webhook answering 200: the run exits with 0. *)
Lemma exit_code_classification_witness :
  exit_code (main (Samples.world [Samples.full_card] (Response 200 "ok"))) = 0.
Proof.
  apply (exit_code_classification
           (Samples.world [Samples.full_card] (Response 200 "ok"))).
  eexists. split; [reflexivity|]. split; [discriminate|reflexivity].
Defined.

(** C3: the one request of a delivery carries an envelope whose
    [products] is the sequence handed in, unchanged, and whose
    [total_products] is the length of that sequence, whatever the
    surroundings. *)
Theorem envelope_counts_products (w : World) (ps : list ProductRecord) :
  filter is_Post (fst (send_to_n8n w ps))
  = [Post (N8N_WEBHOOK_URL w) (build_payload w ps)] /\
  products (build_payload w ps) = ps /\
  total_products (build_payload w ps)
  = List.length (products (build_payload w ps)) /\
  (forall w', total_products (build_payload w' ps) = List.length ps).
Proof.
  rewrite send_to_n8n_run. repeat split.
Qed.

(** C6: the outcome of a delivery.  Status 200 gives true whatever the
    body; another status gives false and a line with the status and the
    body; a timeout gives false and the timeout line, which no other
    fault produces; any other fault gives false and a line with the
    fault's description. *)
Theorem delivery_outcome_classification
    (w : World) (ps : list ProductRecord) :
  let reply := webhook w (build_payload w ps) in
  let run := send_to_n8n w ps in
  (forall body, reply = Response 200 body -> snd run = inl true) /\
  (forall c body, reply = Response c body -> c <> 200 ->
     snd run = inl false /\
     In (Log ("❌ Error HTTP " ++ str_nat c ++ ": " ++ body)%string)
        (fst run)) /\
  (forall e, reply = Fault e -> is_requests_Timeout e = true ->
     snd run = inl false /\
     In (Log "❌ Timeout al enviar a n8n") (fst run) /\
     forall e', ~ In (Log ("❌ Error enviando a n8n: " ++ str e')%string)
                     (fst run)) /\
  (forall e, reply = Fault e -> is_requests_Timeout e = false ->
     snd run = inl false /\
     In (Log ("❌ Error enviando a n8n: " ++ str e)%string) (fst run) /\
     ~ In (Log "❌ Timeout al enviar a n8n") (fst run)).
Proof.
  intros reply run. subst run. rewrite send_to_n8n_run. fold reply.
  repeat split; intros; simpl.
  - now rewrite H.
  - rewrite H. now apply Nat.eqb_neq in H0 as ->.
  - rewrite H. apply Nat.eqb_neq in H0 as ->. auto.
  - now rewrite H.
  - rewrite H. destruct e; try discriminate. auto.
  - rewrite H. destruct e; try discriminate.
    intros [A|[A|[A|[]]]]; discriminate.
  - now rewrite H.
  - rewrite H. destruct e; try discriminate; auto.
  - rewrite H. destruct e; try discriminate;
      intros [A|[A|[A|[]]]]; discriminate.
Qed.

(** A webhook answering 500 with the body [server error]. *)
Lemma delivery_outcome_classification_witness :
  snd (send_to_n8n (Samples.world [] (Response 500 "server error")) [])
  = inl false /\
  In (Log "❌ Error HTTP 500: server error")
     (fst (send_to_n8n (Samples.world [] (Response 500 "server error")) [])).
Proof.
  pose proof (delivery_outcome_classification
                (Samples.world [] (Response 500 "server error")) []) as H.
  cbv zeta in H. destruct H as (_ & H & _).
  apply (H 500 "server error"%string); [reflexivity|discriminate].
Defined.

(** C7: when extraction returns the empty sequence, [main] logs the
    warning and exits with status 1; its events are the banner, those of
    the extraction and the warning, so [send_to_n8n] is not called and no
    request is made. *)
Theorem empty_extraction_skips_delivery (w : World) :
  snd (scrape_falabella w) = inl [] ->
  fst (main w)
  = banner ++ fst (scrape_falabella w)
    ++ [Log "⚠️ No se encontraron productos"] /\
  existsb is_Post (fst (main w)) = false /\
  exit_code (main w) = 1.
Proof.
  intros H. pose proof (scrape_falabella_no_Post w) as NP. rewrite main_run.
  destruct (scrape_falabella w) as [t r]. simpl in H, NP. subst r. simpl.
  repeat split. now rewrite existsb_app, NP.
Qed.

(** The products are there for the wait and gone at evaluation. *)
Lemma empty_extraction_skips_delivery_witness :
  existsb is_Post (fst (main Samples.vanishing_world)) = false /\
  exit_code (main Samples.vanishing_world) = 1.
Proof.
  apply (empty_extraction_skips_delivery Samples.vanishing_world).
  reflexivity.
Defined.

(** C8: whatever the browser calls do, no browser is held when
    [scrape_falabella] hands back control, with a result or with an
    exception: the explicit [browser.close()] releases it on the normal
    path, and on every path the exit of the [with sync_playwright()]
    block stops the driver, and with it the browser it launched, before
    the [except] clause logs and raises again. *)
Theorem browser_released_on_every_path (w : World) :
  browser_held false (fst (scrape_falabella w)) = false /\
  (forall ps, snd (scrape_falabella w) = inl ps ->
              In BrowserClose (fst (scrape_falabella w))) /\
  (In Launch (fst (scrape_falabella w)) ->
   In PlaywrightStop (fst (scrape_falabella w))).
Proof.
  unfold_run.
  split_run; cbn -[extract str_nat String.append existsb];
    (split; [reflexivity|]); (split; [intros ps E; try discriminate|]);
    intuition discriminate.
Qed.

(** A navigation timeout after the launch: the driver is stopped. *)
Lemma browser_released_on_every_path_witness :
  In PlaywrightStop (fst (scrape_falabella Samples.stalled_world)).
Proof.
  apply (browser_released_on_every_path Samples.stalled_world).
  vm_compute. tauto.
Defined.

(** The tree-order listing is closed under taking descendants. *)
Lemma subtree_closed n :
  forall m, In m (subtree n) -> incl (descendants m) (subtree n).
Proof.
  induction n using node_rect' with
    (Q := fun ks => forall m, In m (subtrees ks) ->
                              incl (descendants m) (subtrees ks)).
  - intros m [].
  - intros m. rewrite subtree_Elem. intros [<-|H].
    + apply incl_tl, incl_refl.
    + apply incl_tl. now apply IHn.
  - intros m [].
  - intros m H. simpl in H |- *. apply in_app_or in H as [H|H].
    + apply incl_appl. now apply IHn.
    + apply incl_appr. now apply IHn0.
Qed.

Lemma subtrees_closed ks m :
  In m (subtrees ks) -> incl (descendants m) (subtrees ks).
Proof.
  induction ks as [|k ks IH]; simpl; [tauto|].
  intros H. apply in_app_or in H as [H|H].
  - apply incl_appl. now apply subtree_closed.
  - apply incl_appr. now apply IH.
Qed.

Lemma trimmed_text_sound el :
  match el with Some n => sound n = true | None => True end ->
  exists v, trimmed_text el = Ok v.
Proof.
  destruct el as [[s|e ks]|]; simpl; eauto.
  intros H. apply negb_true_iff in H. rewrite H. simpl. eauto.
Qed.

(** In an untampered page no card throws. *)
Lemma untampered_no_throw p card index :
  untampered p = true -> In card (subtrees p) ->
  extract_card card index <> Throw.
Proof.
  intros U Hc.
  assert (S : forall sels,
             exists v, trimmed_text (querySelector card sels) = Ok v).
  { intros sels. apply trimmed_text_sound.
    destruct (querySelector card sels) as [el|] eqn:Q; [|exact I].
    rewrite querySelector_find in Q. apply find_some in Q as [Q _].
    unfold untampered in U. rewrite forallb_forall in U. apply U.
    eapply subtrees_closed; eassumption. }
  unfold extract_card.
  destruct (S name_sel) as [? ->], (S price_sel) as [? ->],
    (S originalPrice_sel) as [? ->], (S discount_sel) as [? ->],
    (S rating_sel) as [? ->].
  discriminate.
Qed.

Lemma is_match_single s sels n :
  In s sels -> is_match [s] n = true -> is_match sels n = true.
Proof.
  destruct n as [|e ks]; simpl; [discriminate|].
  intros Hs H. rewrite orb_false_r in H. unfold matches_any.
  apply existsb_exists. eauto.
Qed.

Lemma querySelectorAll_none p s sels :
  existsb (is_match sels) (subtrees p) = false -> In s sels ->
  querySelectorAll p [s] = [].
Proof.
  intros H Hs. unfold querySelectorAll.
  induction (subtrees p) as [|n l IH]; simpl in *; [reflexivity|].
  apply orb_false_elim in H as [Hn Hl].
  destruct (is_match [s] n) eqn:E; [|now apply IH].
  apply (is_match_single s sels n Hs) in E. congruence.
Qed.

(** On such a page the routine takes the matches of the fourth
    candidate, and there is one. *)
Lemma only_fourth_productElements p :
  only_fourth p = true ->
  productElements p = querySelectorAll p [fourth] /\
  productElements p <> [].
Proof.
  unfold only_fourth. intros H. apply andb_prop in H as [H1 H2].
  apply negb_true_iff in H1.
  assert (E : productElements p = querySelectorAll p [fourth]).
  { unfold productElements, selectors, choose.
    rewrite !(querySelectorAll_none p _ wait_sel H1) by (simpl; tauto).
    simpl. fold fourth.
    destruct (0 <? List.length (querySelectorAll p [fourth])); reflexivity. }
  split; [exact E|]. rewrite E. unfold querySelectorAll.
  apply existsb_exists in H2 as (n & Hn & Hm).
  intros F. assert (In n (filter (is_match [fourth]) (subtrees p)))
    by (apply filter_In; auto).
  rewrite F in H. contradiction.
Qed.

Lemma only_fourth_poll p :
  only_fourth p = true -> poll wait_sel p = false.
Proof.
  unfold only_fourth, poll. intros H. apply andb_prop in H as [H _].
  apply negb_true_iff in H. rewrite first_in_list_find.
  destruct (find (is_match wait_sel) (subtrees p)) as [n|] eqn:F;
    [|reflexivity].
  apply find_some in F as [Hin Hm].
  assert (existsb (is_match wait_sel) (subtrees p) = true)
    by (apply existsb_exists; eauto).
  congruence.
Qed.

(** C9: the waited group is the first three of the four extraction
    candidates.  When the page shown during the wait has elements for the
    fourth candidate only, the wait raises the timeout error and
    [scrape_falabella] fails with it, although the extraction routine
    evaluated on that page (with no replaced accessor) returns a non-empty
    sequence. *)
Theorem wait_narrower_than_extraction (w : World) (p : document) :
  start_fault w = None -> launch_fault w = None ->
  new_context_fault w = None -> new_page_fault w = None ->
  goto_fault w = None ->
  Forall (eq p) (wait_polls w) ->
  only_fourth p = true -> untampered p = true ->
  (incl wait_sel selectors /\ In fourth selectors /\ ~ In fourth wait_sel) /\
  snd (scrape_falabella w)
  = inr (Exception (PlaywrightTimeoutError (wait_message w))) /\
  extract p <> [].
Proof.
  intros F1 F2 F3 F4 F5 Hp O U. split; [|split].
  - split; [|split].
    + intros s [<-|[<-|[<-|[]]]]; simpl; tauto.
    + simpl. tauto.
    + intros [H|[H|[H|[]]]]; discriminate.
  - assert (E : existsb (poll wait_sel) (wait_polls w) = false).
    { induction Hp as [|d l Hd _ IH]; simpl; [reflexivity|].
      subst d. now rewrite (only_fourth_poll p O). }
    unfold_run. rewrite F1, F2, F3, F4, F5, E. reflexivity.
  - destruct (only_fourth_productElements p O) as [E NE].
    unfold extract. destruct (productElements p) as [|card cards] eqn:P;
      [now elim NE|].
    rewrite forEach_cons.
    assert (In card (subtrees p)) as Hc.
    { assert (In card (querySelectorAll p [fourth]))
        by (rewrite <- E; now left).
      unfold querySelectorAll in H. now apply filter_In in H. }
    pose proof (untampered_no_throw p card 0 U Hc) as NT.
    destruct (extract_card card 0); [discriminate|now elim NT].
Qed.

(** A page of two [data-testid] cards. *)
Lemma wait_narrower_than_extraction_witness :
  snd (scrape_falabella
         (Samples.world Samples.testid_page (Response 200 "ok")))
  = inr (Exception (PlaywrightTimeoutError "Timeout 30000ms exceeded.")) /\
  extract Samples.testid_page <> [].
Proof.
  apply (wait_narrower_than_extraction
           (Samples.world Samples.testid_page (Response 200 "ok"))
           Samples.testid_page);
    try reflexivity.
  repeat constructor.
Defined.

End Runs.

(* ================================================================== *)
(** ** More on the extraction routine *)

Section ExtractionCoverage.
Import JS DOM Extract Shape.

Lemma choose_first d cands acc :
  acc = [] ->
  (Forall (fun s => querySelectorAll d [s] = []) cands /\
   choose d cands acc = [])
  \/ (exists before s after,
        cands = before ++ s :: after /\
        Forall (fun s' => querySelectorAll d [s'] = []) before /\
        querySelectorAll d [s] <> [] /\
        choose d cands acc = querySelectorAll d [s]).
Proof.
  revert acc. induction cands as [|s cands IH]; intros acc ->.
  - left. split; [constructor|reflexivity].
  - simpl. destruct (querySelectorAll d [s]) as [|c found] eqn:E.
    + simpl. destruct (IH [] eq_refl) as [[HF HC]|(b & s' & a & -> & HF & HN & HC)].
      * left. split; [now constructor|exact HC].
      * right. exists (s :: b), s', a. repeat split; auto.
    + right. exists [], s, cands. simpl. rewrite E.
      repeat split; [constructor|discriminate].
Qed.

(** X1: the containers of a run are the matches of one candidate, the
    first in the listed order with a match; the candidates before it have
    none, and when no candidate has a match there are no containers and
    the result is empty. *)
Theorem productElements_first_candidate (d : document) :
  (Forall (fun s => querySelectorAll d [s] = []) selectors /\
   productElements d = [] /\ extract d = [])
  \/ (exists before s after,
        selectors = before ++ s :: after /\
        Forall (fun s' => querySelectorAll d [s'] = []) before /\
        querySelectorAll d [s] <> [] /\
        productElements d = querySelectorAll d [s] /\
        Forall (fun card => is_match [s] card = true) (productElements d)).
Proof.
  unfold extract, productElements.
  destruct (choose_first d selectors [] eq_refl)
    as [[HF HC]|(b & s & a & E & HF & HN & HC)].
  - left. rewrite HC. repeat split; assumption.
  - right. exists b, s, a. rewrite HC. repeat split; try assumption.
    apply Forall_forall. intros card H. unfold querySelectorAll in H.
    now apply filter_In in H.
Qed.

Lemma forEach_length cards index :
  List.length (forEach cards index []) <= List.length cards.
Proof.
  revert index. induction cards as [|card cards IH]; intros index.
  - apply le_n.
  - rewrite forEach_cons. specialize (IH (S index)).
    destruct (extract_card card index); simpl; lia.
Qed.

(** X2: a throwing container costs its own record only.  The result
    holds a record exactly for each container whose [try] block runs to
    its end, namely the record built from that container at its position,
    and never more records than containers. *)
Theorem records_are_the_sound_containers (d : document) (r : ProductRecord) :
  (In r (extract d) <->
   exists index card,
     nth_error (productElements d) index = Some card /\
     extract_card card index = Ok r) /\
  List.length (extract d) <= List.length (productElements d).
Proof.
  split; [apply (forEach_In (productElements d) 0)|apply forEach_length].
Qed.

Lemma trim_start_suffix s : exists p, s = p ++ trim_start s.
Proof.
  induction s as [|c s [p IH]]; simpl.
  - now exists [].
  - destruct (is_whitespace c).
    + exists (c :: p). simpl. now f_equal.
    + now exists [].
Qed.

(** [trim] leaves no white space at either end. *)
Lemma trimmed_trim s : trimmed (trim s) = true.
Proof.
  unfold trim, trim_end.
  destruct (trim_start_suffix (rev (trim_start s))) as [p Hp].
  destruct (trim_start (rev (trim_start s))) as [|c u] eqn:U;
    [reflexivity|].
  pose proof (trim_start_head _ _ _ U) as Hc.
  apply (f_equal (@rev N)) in Hp.
  rewrite rev_involutive, rev_app_distr in Hp.
  destruct (rev (c :: u)) as [|x xs] eqn:R.
  { simpl in R. now destruct (rev u). }
  simpl in Hp. pose proof (trim_start_head _ _ _ Hp) as Hx.
  assert (L : last (x :: xs) x = c).
  { rewrite <- R. simpl. apply last_last. }
  unfold trimmed. now rewrite L, Hx, Hc.
Qed.

Lemma trimmed_text_value el v :
  trimmed_text el = Ok v -> v = Undefined \/ exists t, v = Str (trim t).
Proof.
  destruct el as [n|]; simpl.
  - intros H. apply bind_Ok in H as (t & _ & [= <-]). eauto.
  - intros [= <-]. now left.
Qed.

Lemma text_or_sentinel el v :
  trimmed_text el = Ok v -> text_value (v <||> sentinel) = true.
Proof.
  intros H. apply trimmed_text_value in H as [->|[t ->]]; [reflexivity|].
  pose proof (trimmed_trim t) as T. unfold JS.or.
  destruct (trim t) as [|c u]; [reflexivity|exact T].
Qed.

Lemma text_or_null el v :
  trimmed_text el = Ok v -> optional_text (v <||> Null) = true.
Proof.
  intros H. apply trimmed_text_value in H as [->|[t ->]]; [reflexivity|].
  pose proof (trimmed_trim t) as T. unfold JS.or.
  destruct (trim t) as [|c u]; [reflexivity|exact T].
Qed.

Lemma image_shape (imageEl : option node) :
  optional_string (opt_chain imageEl get_src
                   <||> opt_chain imageEl (getAttribute "data-src")
                   <||> Null) = true.
Proof.
  destruct imageEl as [[s|e ks]|]; simpl; try reflexivity.
  destruct (ns e), (src e), (assoc "data-src" (attrs e)) as [[|c v]|];
    reflexivity.
Qed.

Lemma link_shape (linkEl : option node) :
  optional_link (opt_chain linkEl get_href <||> Null) = true.
Proof.
  destruct linkEl as [[s|e ks]|]; simpl; try reflexivity.
  destruct (ns e), (href e); reflexivity.
Qed.

(** X3: the shape of a record.  [name] and [price] are always non-empty
    strings without white space at either end (a trimmed text or the
    sentinel); [originalPrice], [discount] and [rating] are null or such a
    string; [image] is null or a non-empty string; [link] is null, a
    non-empty string, or the [SVGAnimatedString] object of an SVG link.
    No field is ever [undefined] or the empty string. *)
Theorem record_field_shapes (d : document) (r : ProductRecord) :
  In r (extract d) ->
  text_value (name r) = true /\
  text_value (price r) = true /\
  optional_text (originalPrice r) = true /\
  optional_text (discount r) = true /\
  optional_string (image r) = true /\
  optional_link (link r) = true /\
  optional_text (rating r) = true.
Proof.
  intros Hr. apply extract_In in Hr as (card & _ & Hc).
  apply extract_card_Ok in Hc as (n & p & o & dd & g & Hc).
  destruct Hc as (En & Ep & Eo & Ed & Eg & ->). simpl.
  repeat split;
    eauto using text_or_sentinel, text_or_null, image_shape, link_shape.
Qed.

(** The record of the card with every field present. *)
Lemma record_field_shapes_witness :
  text_value (name Samples.full_record) = true /\
  text_value (price Samples.full_record) = true /\
  optional_text (originalPrice Samples.full_record) = true /\
  optional_text (discount Samples.full_record) = true /\
  optional_string (image Samples.full_record) = true /\
  optional_link (link Samples.full_record) = true /\
  optional_text (rating Samples.full_record) = true.
Proof.
  apply (record_field_shapes [Samples.full_card] Samples.full_record).
  vm_compute. left. reflexivity.
Defined.

Lemma trimmed_text_filled el v :
  trimmed_text (Some el) = Ok v -> blank (textContent el) = false ->
  v = Str (trim (textContent el)) /\ truthy v = true.
Proof.
  simpl. intros H B. apply bind_Ok in H as (t & Ht & [= <-]).
  apply get_textContent_Ok in Ht. subst t. split; [reflexivity|].
  simpl. destruct (trim (textContent el)) eqn:T; [|reflexivity].
  apply trim_nil in T. congruence.
Qed.

(** X4: a text field whose matched element has text that is not all
    white space holds exactly that text, trimmed: no fallback applies. *)
Theorem filled_text_is_trimmed (d : document) (r : ProductRecord) :
  In r (extract d) ->
  exists card,
    nth_error (productElements d) (id r - 1) = Some card /\
    (forall el, querySelector card name_sel = Some el ->
                blank (textContent el) = false ->
                name r = Str (trim (textContent el))) /\
    (forall el, querySelector card price_sel = Some el ->
                blank (textContent el) = false ->
                price r = Str (trim (textContent el))) /\
    (forall el, querySelector card originalPrice_sel = Some el ->
                blank (textContent el) = false ->
                originalPrice r = Str (trim (textContent el))) /\
    (forall el, querySelector card discount_sel = Some el ->
                blank (textContent el) = false ->
                discount r = Str (trim (textContent el))) /\
    (forall el, querySelector card rating_sel = Some el ->
                blank (textContent el) = false ->
                rating r = Str (trim (textContent el))).
Proof.
  intros Hr. apply extract_In in Hr as (card & Hn & Hc).
  exists card. split; [exact Hn|].
  apply extract_card_Ok in Hc as (n & p & o & dd & g & Hc).
  destruct Hc as (En & Ep & Eo & Ed & Eg & ->). simpl.
  repeat split; intros el Q B; rewrite Q in *;
    match goal with
    | H : trimmed_text (Some el) = Ok ?v |- ?v <||> _ = _ =>
        destruct (trimmed_text_filled el v H B) as [<- T];
        unfold JS.or; now rewrite T
    end.
Qed.

(** The name of the full card is its text without the spaces around. *)
Lemma filled_text_is_trimmed_witness :
  name Samples.full_record = Str (lit "Zapatilla Urbana").
Proof.
  destruct (filled_text_is_trimmed [Samples.full_card] Samples.full_record)
    as (card & Hn & Hname & _).
  { vm_compute. left. reflexivity. }
  injection Hn as <-.
  exact (Hname _ eq_refl eq_refl).
Defined.

(** X5: the image prefers the eager source, and the link is what the
    [href] property is.  A matched HTML image with a non-empty [src]
    gives that [src], whatever its [data-src].  A matched HTML link gives
    its [href], or null when the [href] is empty; a matched SVG link
    gives the [SVGAnimatedString] object its [href] is, not a string; a
    matched MathML element, which has no [href], gives null. *)
Theorem image_prefers_src (d : document) (r : ProductRecord) :
  In r (extract d) ->
  exists card,
    nth_error (productElements d) (id r - 1) = Some card /\
    (forall e ks, querySelector card image_sel = Some (Elem e ks) ->
                  ns e = HTML -> src e <> [] -> image r = Str (src e)) /\
    (forall e ks, querySelector card link_sel = Some (Elem e ks) ->
                  link r = match ns e with
                           | HTML => match href e with
                                     | [] => Null
                                     | c :: h => Str (c :: h)
                                     end
                           | SVG => SVGAnimatedString
                           | MathML => Null
                           end).
Proof.
  intros Hr. apply extract_In in Hr as (card & Hn & Hc).
  exists card. split; [exact Hn|].
  apply extract_card_Ok in Hc as (n & p & o & dd & g & Hc).
  destruct Hc as (_ & _ & _ & _ & _ & ->). simpl. split.
  - intros e ks Q H S. rewrite Q. simpl. rewrite H.
    destruct (src e) as [|c u]; [now elim S|reflexivity].
  - intros e ks Q. rewrite Q. simpl. now destruct (ns e), (href e).
Qed.

(** The image and the link of the full card, and the link of a card
    whose first [a] is an SVG link. *)
Lemma image_prefers_src_witness :
  image Samples.full_record = Str (lit "https://img.example/1.jpg") /\
  link Samples.full_record = Str (lit "https://www.falabella.com.pe/p/1") /\
  link Samples.svg_link_record = SVGAnimatedString.
Proof.
  destruct (image_prefers_src [Samples.full_card] Samples.full_record)
    as (card & Hn & Himage & Hlink).
  { vm_compute. left. reflexivity. }
  destruct (image_prefers_src [Samples.svg_link_card] Samples.svg_link_record)
    as (card' & Hn' & _ & Hlink').
  { vm_compute. left. reflexivity. }
  injection Hn as <-. injection Hn' as <-. split; [|split].
  - refine (Himage _ _ eq_refl eq_refl _). discriminate.
  - exact (Hlink _ _ eq_refl).
  - exact (Hlink' _ _ eq_refl).
Defined.

End ExtractionCoverage.

(* ================================================================== *)
(** ** More on the runs of the Python program *)

Section RunCoverage.
Import JS DOM Extract Py Shape.

Ltac open_run :=
  unfold scrape_falabella, with_sync_playwright, wait_for_selector, evaluate,
    call, log, sys_exit, emit, raise, ret.

Ltac case_run :=
  repeat (cbn -[extract str_nat existsb];
          match goal with
          | |- context [match ?x with Some _ => _ | None => _ end] =>
              destruct x eqn:?
          | |- context [if ?b then _ else _] => destruct b eqn:?
          end);
  cbn -[extract str_nat existsb].

(** X6: [scrape_falabella] raises the first fault of its browser calls,
    in call order, and returns the routine's result on the evaluated
    document only when there is none; so a failing [browser.close()]
    after a successful evaluation still makes the whole call fail, and no
    list is returned on a failing path. *)
Theorem scrape_falabella_first_fault (w : World) :
  snd (scrape_falabella w)
  = match first_fault w with
    | Some e => inr (Exception e)
    | None => inl (extract (rendered w))
    end.
Proof.
  unfold first_fault. open_run.
  destruct (start_fault w); [reflexivity|].
  destruct (launch_fault w); [reflexivity|].
  destruct (new_context_fault w); [reflexivity|].
  destruct (new_page_fault w); [reflexivity|].
  destruct (goto_fault w); [reflexivity|].
  destruct (existsb (poll wait_sel) (wait_polls w)); [|reflexivity].
  destruct (scroll_fault w); [reflexivity|].
  destruct (settle_fault w); [reflexivity|].
  destruct (evaluate_fault w); [reflexivity|].
  destruct (close_fault w); reflexivity.
Qed.

(** The extraction succeeded and closing the browser failed. *)
Lemma scrape_falabella_first_fault_witness :
  extract (rendered Samples.close_fails_world) <> [] /\
  snd (scrape_falabella Samples.close_fails_world)
  = inr (Exception (PlaywrightError "Target closed")).
Proof.
  split; [vm_compute; discriminate|].
  rewrite (scrape_falabella_first_fault Samples.close_fails_world).
  reflexivity.
Defined.

Lemma ends_with_cons {A} (a : A) (l s : list A) :
  (exists t, l = t ++ s) -> exists t, a :: l = t ++ s.
Proof. intros [t ->]. now exists (a :: t). Qed.

Ltac ends_with :=
  repeat first [ now (exists []) | apply ends_with_cons ].

(** X7: the last lines of [scrape_falabella].  A returned list is
    announced with its own length, after [browser.close()] and before the
    driver stops; a raised exception is announced by the error line with
    its description, the last action before it propagates. *)
Theorem scrape_falabella_last_lines (w : World) :
  match snd (scrape_falabella w) with
  | inl ps =>
      exists t,
        fst (scrape_falabella w)
        = t ++ [ BrowserClose;
                 Log ("✅ Extraídos " ++ str_nat (List.length ps)
                      ++ " productos")%string;
                 PlaywrightStop ]
  | inr (Exception e) =>
      exists t,
        fst (scrape_falabella w)
        = t ++ [Log ("❌ Error en scraping: " ++ str e)%string]
  | inr (SystemExit _) => False
  end.
Proof.
  open_run. case_run; ends_with.
Qed.

(** X8: the routine is evaluated in the page only when every call
    before it succeeded: the manager, the launch, the context, the page,
    the navigation, a poll of the selector wait, the scroll and the
    pause. *)
Theorem evaluate_only_after_wait (w : World) :
  In Evaluate (fst (scrape_falabella w)) ->
  start_fault w = None /\ launch_fault w = None /\
  new_context_fault w = None /\ new_page_fault w = None /\
  goto_fault w = None /\
  existsb (poll wait_sel) (wait_polls w) = true /\
  In (WaitForSelector wait_sel) (fst (scrape_falabella w)) /\
  scroll_fault w = None /\ settle_fault w = None.
Proof.
  open_run. case_run; intros H;
    try (repeat (destruct H as [H|H]; try discriminate); contradiction);
    repeat split; simpl; tauto.
Qed.

(** A run without faults evaluates the routine after the wait. *)
Lemma evaluate_only_after_wait_witness :
  In (WaitForSelector wait_sel)
     (fst (scrape_falabella
             (Samples.world [Samples.full_card] (Response 200 "ok")))).
Proof.
  apply (evaluate_only_after_wait
           (Samples.world [Samples.full_card] (Response 200 "ok"))).
  vm_compute. tauto.
Defined.

(** X9: [send_to_n8n] never raises and never exits: whatever the
    webhook does, it returns a boolean, and that boolean is true exactly
    when a response came back with status 200. *)
Theorem send_to_n8n_never_raises (w : World) (ps : list ProductRecord) :
  (exists b, snd (send_to_n8n w ps) = inl b) /\
  (snd (send_to_n8n w ps) = inl true <->
   exists body, webhook w (build_payload w ps) = Response 200 body).
Proof.
  rewrite send_to_n8n_run. simpl. split; [eauto|].
  destruct (webhook w (build_payload w ps)) as [c body|e].
  - destruct (Nat.eqb c 200) eqn:E.
    + apply Nat.eqb_eq in E as ->. split; eauto.
    + apply Nat.eqb_neq in E. split; [discriminate|].
      intros (b & [= H _]). contradiction.
  - split; [discriminate|]. intros (b & H). discriminate.
Qed.

Lemma filter_none {A} (f : A -> bool) (l : list A) :
  existsb f l = false -> filter f l = [].
Proof.
  induction l as [|a l IH]; simpl; [reflexivity|].
  destruct (f a); [discriminate|exact IH].
Qed.

(** X10: one run makes at most one request.  [main] posts exactly when
    extraction returned a non-empty list, once, to the configured URL,
    and the envelope holds the list the routine produced on the evaluated
    document; a failed or empty extraction posts nothing. *)
Theorem main_posts_the_extraction (w : World) :
  filter is_Post (fst (main w))
  = match snd (scrape_falabella w) with
    | inl (_ :: _) =>
        [Post (N8N_WEBHOOK_URL w) (build_payload w (extract (rendered w)))]
    | _ => []
    end.
Proof.
  pose proof (scrape_falabella_outcome w) as HS.
  pose proof (scrape_falabella_no_Post w) as NP. apply filter_none in NP.
  rewrite main_run.
  destruct (scrape_falabella w) as [t [[|p ps]|[e|c]]]; simpl in HS, NP |- *;
    rewrite ?filter_app, ?NP; try reflexivity.
  destruct HS as [(ps' & [= <-] & HS)|(e & HS)]; [|discriminate].
  rewrite <- HS, send_to_n8n_run.
  destruct (match webhook w (build_payload w (p :: ps)) with
            | Response c _ => Nat.eqb c 200
            | Fault _ => false
            end); simpl; rewrite !filter_app, NP; reflexivity.
Qed.

(** One card on the page: its record is what the webhook receives. *)
Lemma main_posts_the_extraction_witness :
  filter is_Post
    (fst (main (Samples.world [Samples.full_card] (Response 200 "ok"))))
  = [Post default_webhook
       (build_payload (Samples.world [Samples.full_card] (Response 200 "ok"))
          [Samples.full_record])].
Proof.
  rewrite (main_posts_the_extraction
             (Samples.world [Samples.full_card] (Response 200 "ok"))).
  reflexivity.
Defined.

Lemma scrape_falabella_no_success_line w :
  ~ In success_line (fst (scrape_falabella w)).
Proof.
  unfold success_line. open_run. case_run; intros H;
    repeat (destruct H as [H|H]; try discriminate); contradiction.
Qed.

Lemma send_to_n8n_no_success_line w ps :
  ~ In success_line (fst (send_to_n8n w ps)).
Proof.
  unfold success_line. rewrite send_to_n8n_run. simpl.
  intros [H|[H|[H|[]]]]; try discriminate.
  destruct (webhook w (build_payload w ps)) as [c body|e].
  - destruct (Nat.eqb c 200); discriminate.
  - destruct e; discriminate.
Qed.

(** X11: [log] is called with the message
    [PROCESO COMPLETADO EXITOSAMENTE] in exactly the runs that exit with
    status 0: [main] passes it only on the success branch, and no call of
    [log] in [scrape_falabella] or [send_to_n8n] passes that message.
    This is about the messages handed to [log], one per call, not about
    the lines of the printed text. *)
Theorem success_line_iff_exit_0 (w : World) :
  In success_line (fst (main w)) <-> exit_code (main w) = 0.
Proof.
  pose proof (scrape_falabella_no_success_line w) as N1.
  pose proof (scrape_falabella_outcome w) as HS.
  rewrite main_run.
  destruct (scrape_falabella w) as [t [[|p ps]|[e|c]]]; simpl in N1, HS |- *.
  - split; [|discriminate]. intros [H|[H|[H|H]]]; try discriminate.
    apply in_app_or in H as [H|[H|[]]]; [contradiction|discriminate].
  - pose proof (send_to_n8n_no_success_line w (p :: ps)) as N2.
    destruct (send_to_n8n_returns w (p :: ps)) as [b Hb].
    destruct (send_to_n8n w (p :: ps)) as [t' [[|]|[e|c]]];
      simpl in N2, Hb |- *; try discriminate.
    + split; [reflexivity|]. intros _. do 3 right.
      apply in_or_app. right. apply in_or_app. right. simpl. tauto.
    + split; [|discriminate]. intros [H|[H|[H|H]]]; try discriminate.
      apply in_app_or in H as [H|H]; [contradiction|].
      apply in_app_or in H as [H|[H|[]]]; [contradiction|discriminate].
  - split; [|discriminate]. intros [H|[H|[H|H]]]; try discriminate.
    apply in_app_or in H as [H|[H|[]]]; [contradiction|discriminate].
  - destruct HS as [(ps & H & _)|(e & H)]; discriminate.
Qed.

(** X12: when extraction raises, [main] stops there: its events are the
    banner, those of the extraction and the fatal line with the
    exception's description, and it exits with status 1. *)
Theorem main_on_extraction_failure (w : World) (e : exception) :
  snd (scrape_falabella w) = inr (Exception e) ->
  main w
  = (banner ++ fst (scrape_falabella w)
     ++ [Log ("💥 Error fatal: " ++ str e)%string],
     inr (SystemExit 1)).
Proof.
  intros H. rewrite main_run.
  destruct (scrape_falabella w) as [t r]. simpl in H. now subst r.
Qed.

(** A navigation timeout: the fatal line repeats its description. *)
Lemma main_on_extraction_failure_witness :
  last (fst (main Samples.stalled_world)) PlaywrightStop
  = Log "💥 Error fatal: Timeout 60000ms exceeded." /\
  exit_code (main Samples.stalled_world) = 1.
Proof.
  rewrite (main_on_extraction_failure Samples.stalled_world
             (PlaywrightTimeoutError "Timeout 60000ms exceeded.")
             eq_refl).
  split; reflexivity.
Defined.

(** X13: [main] never returns and lets no exception through: every run
    ends in [sys.exit], with status 0 or 1. *)
Theorem main_always_exits (w : World) :
  snd (main w) = inr (SystemExit 0) \/ snd (main w) = inr (SystemExit 1).
Proof.
  pose proof (scrape_falabella_outcome w) as HS. rewrite main_run.
  destruct (scrape_falabella w) as [t [[|p ps]|[e|c]]]; simpl in HS |- *.
  - now right.
  - destruct (send_to_n8n_returns w (p :: ps)) as [b Hb].
    destruct (send_to_n8n w (p :: ps)) as [t' [[|]|[e|c]]];
      simpl in Hb |- *; try discriminate; [now left|now right].
  - now right.
  - destruct HS as [(ps & H & _)|(e & H)]; discriminate.
Qed.

End RunCoverage.
